(** * libmidi_io: port lifecycle, polling receive, MultiPort and backend registry

    A shallow embedding of [libmidi_io/types/port.py],
    [libmidi_io/utils/messages.py], [libmidi_io/utils/lock.py] and
    [libmidi_io/backends/__init__.py], with the device descriptors and the
    KDMAPI and RtMidi device listings.

    Python objects are modelled with explicit state passing:
    - message objects live in a heap (a list indexed by reference), so that
      [msg.copy()] allocates a new object and aliasing is visible;
    - a port object is a record of the attributes [BasePort.__init__] sets,
      plus the subclass attributes ([drv]) and a ghost [trace] of the lock,
      transport-hook and sleep events the port performed;
    - a method is a function from the state to a result (a value or a raised
      exception) and the new state: mutations made before a [raise] persist. *)

From Stdlib Require Import ZArith String List Bool Lia.
From stdpp Require Import base list gmap strings pretty.
Import ListNotations.
Local Open Scope Z_scope.

(** ** Python exceptions and results *)

(** The exception classes the code raises or meets.  In Python 3 [IOError]
    is an alias of [OSError]; [ValueError], [TypeError] and
    [NotImplementedError] are not subclasses of it.  [SystemExit] and
    [KeyboardInterrupt] derive from [BaseException] directly; all the others
    derive from [Exception]. *)
Inductive PyExc : Type :=
| ValueError (msg : string)
| IOError (msg : string)
| NotImplementedError
| AttributeError (msg : string)
| RuntimeError (msg : string)
| TypeError (msg : string)
| ImportError (msg : string)
| SystemExit
| KeyboardInterrupt.

(** What [except IOError] catches. *)
Definition is_IOError (e : PyExc) : bool :=
  match e with
  | IOError _ => true
  | _ => false
  end.

Definition is_ValueError (e : PyExc) : bool :=
  match e with
  | ValueError _ => true
  | _ => false
  end.

(** What [except Exception] catches. *)
Definition is_Exception (e : PyExc) : bool :=
  match e with
  | SystemExit | KeyboardInterrupt => false
  | _ => true
  end.

Inductive Res (A : Type) : Type :=
| Ok (a : A)
| Raise (e : PyExc).
Arguments Ok {A} a.
Arguments Raise {A} e.

(** A Python method over a state [S]: the state is threaded through and is
    not rolled back by an exception. *)
Definition Py (S A : Type) : Type := S -> Res A * S.

Definition ret {S A} (a : A) : Py S A := fun s => (Ok a, s).
Definition raise {S A} (e : PyExc) : Py S A := fun s => (Raise e, s).
Definition bind {S A B} (c : Py S A) (k : A -> Py S B) : Py S B :=
  fun s =>
    match c s with
    | (Ok a, s') => k a s'
    | (Raise e, s') => (Raise e, s')
    end.

(** [try: body / except IOError: pass] *)
Definition try_except_IOError {S} (body : Py S unit) : Py S unit :=
  fun s =>
    match body s with
    | (Ok a, s') => (Ok a, s')
    | (Raise e, s') => if is_IOError e then (Ok tt, s') else (Raise e, s')
    end.

Declare Scope py_scope.
Delimit Scope py_scope with py.
Notation "x <- c1 ;; c2" := (bind c1 (fun x => c2))
  (at level 100, c1 at next level, right associativity) : py_scope.
Notation "c1 ;; c2" := (bind c1 (fun _ => c2))
  (at level 100, right associativity) : py_scope.

(** ** Messages and the object heap *)

(** [libmidi] messages are external to the repository; the core only builds
    control-change messages (utils/messages.py) and otherwise treats
    messages as opaque byte-serialisable values. *)
Inductive Message : Type :=
| MessageControlChange (channel control value : Z)
| MessageBytes (data : list Z).

(** A reference to a message object, and the heap of message objects. *)
Abbreviation ref := nat (only parsing).
Abbreviation Heap := (list Message) (only parsing).

(** Object construction: the new object gets an address no live reference
    has. *)
Definition alloc (m : Message) (h : Heap) : ref * Heap :=
  (length h, h ++ [m]).

(** [msg.copy()]: a new object with the same contents.  Calling [.copy()] on
    something that is not a message raises [AttributeError]. *)
Definition copy (r : ref) (h : Heap) : Res ref * Heap :=
  match h !! r with
  | Some m => let '(r', h') := alloc m h in (Ok r', h')
  | None => (Raise (AttributeError "copy"), h)
  end.

(** Caller-side mutation of the message object [r]. *)
Definition mutate (r : ref) (m : Message) (h : Heap) : Heap := <[r := m]> h.

(** Python values that flow through [name], [autoreset] and [receive]. *)
Inductive PyVal : Type :=
| VNone
| VBool (b : bool)
| VStr (s : string)
| VMsg (r : ref)
| VSelf                      (* the port object itself *)
| VGenerator (block : bool). (* a generator object made by MultiPort._receive *)

(** Truth value testing.  Messages, ports and generator objects define
    neither [__bool__] nor [__len__], so they are true. *)
Definition truthy (v : PyVal) : bool :=
  match v with
  | VNone => false
  | VBool b => b
  | VStr s => negb (String.eqb s "")
  | VMsg _ => true
  | VSelf => true
  | VGenerator _ => true
  end.

(** ** utils/lock.py and threading.RLock *)

(** The methods of a lock read none of their arguments, so a call is given
    by the number [nargs] of positional arguments that follow [self]; a
    number the signature does not allow makes the call itself raise
    [TypeError]. *)
Module DummyLock.

(** [def acquire(self, blocking=True, timeout=-1) -> bool: return True] *)
Definition acquire (nargs : nat) : Res PyVal :=
  if (nargs <=? 2)%nat then Ok (VBool true)
  else Raise (TypeError ("DummyLock.acquire() takes from 1 to 3 positional arguments but "
                         +:+ pretty (S nargs) +:+ " were given")).

(** [__enter__ = acquire] *)
Definition __enter__ : nat -> Res PyVal := acquire.

(** [def release(self) -> None: return None] *)
Definition release (nargs : nat) : Res PyVal :=
  match nargs with
  | O => Ok VNone
  | _ => Raise (TypeError ("DummyLock.release() takes 1 positional argument but "
                           +:+ pretty (S nargs) +:+ " were given"))
  end.

(** [__exit__ = release] *)
Definition __exit__ : nat -> Res PyVal := release.

End DummyLock.

(** [threading.RLock], as a [with] statement uses it in the thread that runs
    the port's methods: the lock is re-entrant, so [__enter__()] returns
    [True] at once whether or not this thread holds it already, and
    [__exit__(t, v, tb)] accepts the three arguments, releases one hold and
    returns [None].  (Another thread runs only while this one sleeps, which
    the methods do with the lock free.) *)
Module RLock.

Definition __enter__ (nargs : nat) : Res PyVal := Ok (VBool true).

Definition __exit__ (nargs : nat) : Res PyVal := Ok VNone.

End RLock.

(** ** utils/messages.py *)

Definition DEFAULT_NUM_CHANNELS : Z := 16.

(** [range(n)] for an int [n]: empty when [n <= 0]. *)
Definition py_range (n : Z) : list Z := map Z.of_nat (seq 0 (Z.to_nat n)).

Definition ALL_NOTES_OFF : Z := 123.
Definition RESET_ALL_CONTROLLERS : Z := 121.
Definition ALL_SOUNDS_OFF : Z := 120.

(** The messages the generator [reset_messages(num_channels)] yields, in
    order. *)
Definition reset_messages (num_channels : Z) : list Message :=
  flat_map
    (fun channel =>
       map (fun control => MessageControlChange channel control 0)
           [ALL_NOTES_OFF; RESET_ALL_CONTROLLERS])
    (py_range num_channels).

Definition panic_messages (num_channels : Z) : list Message :=
  map (fun channel => MessageControlChange channel ALL_SOUNDS_OFF 0)
      (py_range num_channels).

Arguments reset_messages : simpl never.
Arguments panic_messages : simpl never.

(** ** types/port.py: the port object *)

(** Ghost events: what a port did, in program order.  [EvOpen], [EvClose],
    [EvSend] and [EvReceive] are calls of the backend-specific [_open],
    [_close], [_send] and [_receive]; [EvAcquire] and [EvRelease] are entry
    into and exit from the body of [with self._lock] (the exit is where
    [self._lock.__exit__] is called); [EvSleep] is
    [sleep(get_sleep_time())]. *)
Inductive Event : Type :=
| EvAcquire
| EvRelease
| EvOpen
| EvClose
| EvSend (r : ref)
| EvReceive (block : bool)
| EvSleep.

Definition is_EvClose (e : Event) : bool :=
  match e with EvClose => true | _ => false end.
Definition is_EvSleep (e : Event) : bool :=
  match e with EvSleep => true | _ => false end.
Definition is_EvSend (e : Event) : bool :=
  match e with EvSend _ => true | _ => false end.

Fixpoint count_events (p : Event -> bool) (t : list Event) : nat :=
  match t with
  | [] => O
  | e :: t' => ((if p e then 1 else 0) + count_events p t')%nat
  end.

(** The attributes of a port object.  [name] and [autoreset] hold whatever
    the constructor was given (Python does not check the annotations);
    [_messages] is the deque of pending messages, oldest first; [drv] holds
    the attributes a subclass adds. *)
Record Port (D : Type) : Type := mkPort {
  name : PyVal;
  autoreset : PyVal;
  _messages : list ref;
  closed : bool;
  drv : D;
  trace : list Event
}.
Arguments mkPort {D} _ _ _ _ _ _.
Arguments name {D} _.
Arguments autoreset {D} _.
Arguments _messages {D} _.
Arguments closed {D} _.
Arguments drv {D} _.
Arguments trace {D} _.

(** The state a method of a port runs in: the message heap and [self]. *)
Record World (D : Type) : Type := mkWorld {
  heap : Heap;
  self : Port D
}.
Arguments mkWorld {D} _ _.
Arguments heap {D} _.
Arguments self {D} _.

Section Accessors.
Context {D : Type}.

Definition set_closed (b : bool) (w : World D) : World D :=
  let p := self w in
  mkWorld (heap w) (mkPort (name p) (autoreset p) (_messages p) b (drv p) (trace p)).

Definition set_messages (q : list ref) (w : World D) : World D :=
  let p := self w in
  mkWorld (heap w) (mkPort (name p) (autoreset p) q (closed p) (drv p) (trace p)).

Definition set_drv (d : D) (w : World D) : World D :=
  let p := self w in
  mkWorld (heap w) (mkPort (name p) (autoreset p) (_messages p) (closed p) d (trace p)).

Definition set_heap (h : Heap) (w : World D) : World D :=
  mkWorld h (self w).

Definition log (e : Event) (w : World D) : World D :=
  let p := self w in
  mkWorld (heap w)
          (mkPort (name p) (autoreset p) (_messages p) (closed p) (drv p) (trace p ++ [e])).
End Accessors.

(** What a backend-specific method can reach: the heap, the pending deque
    (EchoPort._send and the ALSA input handler append to it) and the
    attributes of the subclass.  No subclass in the repository assigns
    [closed], [name] or [autoreset] from these methods. *)
Record HookSt (D : Type) : Type := mkHookSt {
  hs_heap : Heap;
  hs_messages : list ref;
  hs_drv : D
}.
Arguments mkHookSt {D} _ _ _.
Arguments hs_heap {D} _.
Arguments hs_messages {D} _.
Arguments hs_drv {D} _.

(** What a subclass of [BasePort] overrides: the class attribute [_locking]
    ([True] in [BasePort]) and the backend-specific methods. *)
Class PortClass (D : Type) : Type := {
  _locking : bool;
  is_input : D -> Res bool;
  is_output : D -> Res bool;
  _open : Py (HookSt D) unit;
  _close : Py (HookSt D) unit;
  _receive : bool -> Py (HookSt D) PyVal;
  _send : ref -> Py (HookSt D) unit
}.

(** Calling a backend-specific method on [self]. *)
Definition call_hook {D A} (ev : Event) (f : Py (HookSt D) A) : Py (World D) A :=
  fun w =>
    let p := self w in
    let '(r, hs) := f (mkHookSt (heap w) (_messages p) (drv p)) in
    (r, mkWorld (hs_heap hs)
                (mkPort (name p) (autoreset p) (hs_messages hs) (closed p)
                        (hs_drv hs) (trace p ++ [ev]))).

Arguments _locking D {_}.

Section Lock.
Context {D : Type} `{PortClass D}.

(** The methods of [self._lock].  [__init__] sets the attribute to
    [RLock() if self._locking else DummyLock()] and nothing assigns it or
    [_locking] afterwards, so the class decides which lock a port has. *)
Definition _lock__enter__ (nargs : nat) : Res PyVal :=
  if _locking D then RLock.__enter__ nargs else DummyLock.__enter__ nargs.

Definition _lock__exit__ (nargs : nat) : Res PyVal :=
  if _locking D then RLock.__exit__ nargs else DummyLock.__exit__ nargs.

(** [with self._lock: body].  Python calls [self._lock.__enter__()], runs
    the body, and then, however the body ended (it fell off its end, it
    returned or it raised), calls [self._lock.__exit__(type, value,
    traceback)] with three arguments.  An exception raised by that call
    takes the place of the value the body returned or of the exception it
    raised; otherwise the outcome of the body stands ([__exit__] returns
    [None], so an exception of the body is not suppressed).  [close] holds
    the lock while [reset] and [send] take it again. *)
Definition with_lock {A} (body : Py (World D) A) : Py (World D) A :=
  fun w =>
    match _lock__enter__ 0 with
    | Raise e => (Raise e, w)
    | Ok _ =>
        let '(r, w') := body (log EvAcquire w) in
        match _lock__exit__ 3 with
        | Raise e => (Raise e, log EvRelease w')
        | Ok _ => (r, log EvRelease w')
        end
    end.

End Lock.
Arguments _lock__enter__ D {_} nargs.
Arguments _lock__exit__ D {_} nargs.

(** [BasePort] itself: every backend-specific method raises
    [NotImplementedError]. *)
Definition AbstractPort : PortClass unit := {|
  _locking := true;
  is_input := fun _ => Raise NotImplementedError;
  is_output := fun _ => Raise NotImplementedError;
  _open := raise NotImplementedError;
  _close := raise NotImplementedError;
  _receive := fun _ => raise NotImplementedError;
  _send := fun _ => raise NotImplementedError
|}.

(** ** class BasePort *)

(** One pass through a loop body or a method prologue either returns (a
    value or an exception) or falls through to the next statement. *)
Inductive Flow (A : Type) : Type :=
| Return (r : Res A)
| Fallthrough.
Arguments Return {A} r.
Arguments Fallthrough {A}.

(** How a generator stopped being run: it returned, it raised, or the
    consumer stopped asking for items. *)
Inductive GenEnd : Type :=
| Finished
| Failed (e : PyExc)
| Suspended.

Module BasePort.
Section Methods.
Context {D : Type} `{PortClass D}.

(** [__init__(self, name, autoreset, **kwargs)]; [attrs] are the subclass
    attributes as they are while [_open] runs. *)
Definition __init__ (name_arg autoreset_arg : PyVal) (attrs : D) (h : Heap)
  : Res unit * World D :=
  let w0 := mkWorld h (mkPort name_arg autoreset_arg [] true attrs []) in
  (call_hook EvOpen _open ;;
   fun w => (Ok tt, set_closed false w))%py w0.

(** [send(self, msg)] *)
Definition send (msg : ref) : Py (World D) unit :=
  fun w =>
    match is_output (drv (self w)) with
    | Raise e => (Raise e, w)
    | Ok false => (Raise (ValueError "Not an output port"), w)
    | Ok true =>
        if closed (self w)
        then (Raise (ValueError "send() called on closed port"), w)
        else
          with_lock
            (fun w1 =>
               match copy msg (heap w1) with
               | (Ok msg', h') => call_hook (EvSend msg') (_send msg') (set_heap h' w1)
               | (Raise e, h') => (Raise e, set_heap h' w1)
               end) w
    end.

(** [for msg in msgs(): self.send(msg)], where the generator constructs each
    message just before it is sent. *)
Fixpoint send_each (msgs : list Message) : Py (World D) unit :=
  match msgs with
  | [] => ret tt
  | m :: rest =>
      fun w =>
        let '(r, h') := alloc m (heap w) in
        (send r ;; send_each rest)%py (set_heap h' w)
  end.

(** [reset(self)] *)
Definition reset : Py (World D) unit :=
  fun w =>
    if closed (self w) then (Ok tt, w)
    else send_each (reset_messages DEFAULT_NUM_CHANNELS) w.

(** [panic(self)] *)
Definition panic : Py (World D) unit :=
  fun w =>
    if closed (self w) then (Ok tt, w)
    else send_each (panic_messages DEFAULT_NUM_CHANNELS) w.

(** The body of [with self._lock] in [close]. *)
Definition close_block : Py (World D) unit :=
  fun w =>
    if negb (closed (self w)) then
      ((if truthy (autoreset (self w))
        then try_except_IOError reset
        else ret tt) ;;
       call_hook EvClose _close ;;
       fun w' => (Ok tt, set_closed true w'))%py w
    else (Ok tt, w).

(** [close(self)] *)
Definition close : Py (World D) unit := with_lock close_block.

(** The body of [with self._lock] at lines 162-164: [Some msg] is
    [return msg] from inside the block, [None] the block running to its
    end. *)
Definition receive_pending_block : Py (World D) (option PyVal) :=
  fun w =>
    match _messages (self w) with
    | m :: q => (Ok (Some (VMsg m)), set_messages q w)
    | [] => (Ok None, w)
    end.

(** [receive], lines 158-170: the capability check, the pending queue and
    the closed check. *)
Definition receive_prologue (block : bool) (w : World D) : Flow PyVal * World D :=
  match is_input (drv (self w)) with
  | Raise e => (Return (Raise e), w)
  | Ok false => (Return (Raise (ValueError "Not an input port")), w)
  | Ok true =>
      match with_lock receive_pending_block w with
      | (Raise e, w2) => (Return (Raise e), w2)
      | (Ok (Some msg), w2) => (Return (Ok msg), w2)
      | (Ok None, w2) =>
          if closed (self w2) then
            if block
            then (Return (Raise (ValueError "receive() called on closed port")), w2)
            else (Return (Ok VNone), w2)
          else (Fallthrough, w2)
      end
  end.

(** The body of [with self._lock] at lines 173-183: [Some msg] is
    [return msg] from inside the block, [None] the block running to its
    end. *)
Definition receive_poll_block (block : bool) : Py (World D) (option PyVal) :=
  fun w =>
    let '(r, w1) := call_hook (EvReceive block) (_receive block) w in
    match r with
    | Raise e => (Raise e, w1)
    | Ok msg =>
        if truthy msg then (Ok (Some msg), w1)
        else
          match _messages (self w1) with
          | m :: q => (Ok (Some (VMsg m)), set_messages q w1)
          | [] =>
              if negb block then (Ok (Some VNone), w1)
              else if closed (self w1)
              then (Raise (IOError "port closed during receive()"), w1)
              else (Ok None, w1)
          end
    end.

(** [receive], lines 173-185: one iteration of [while True].  Falling
    through means the iteration slept and the loop goes round again. *)
Definition receive_iter (block : bool) (w : World D) : Flow PyVal * World D :=
  match with_lock (receive_poll_block block) w with
  | (Raise e, w1) => (Return (Raise e), w1)
  | (Ok (Some msg), w1) => (Return (Ok msg), w1)
  | (Ok None, w1) => (Fallthrough, log EvSleep w1)
  end.

(** The polling loop.  [sched] lists, sleep by sleep, what the other threads
    do to the port while this one sleeps; [None] is a call still blocked
    when the schedule ends. *)
Fixpoint receive_loop (block : bool) (sched : list (World D -> World D)) (w : World D)
  : option (Res PyVal) * World D :=
  match receive_iter block w with
  | (Return r, w') => (Some r, w')
  | (Fallthrough, w') =>
      match sched with
      | [] => (None, w')
      | others :: sched' => receive_loop block sched' (others w')
      end
  end.

(** [receive(self, block)] *)
Definition receive (block : bool) (sched : list (World D -> World D)) (w : World D)
  : option (Res PyVal) * World D :=
  match receive_prologue block w with
  | (Return r, w') => (Some r, w')
  | (Fallthrough, w') => receive_loop block sched w'
  end.

(** [receive(block=False)] as a method that always returns: the loop body
    runs once and cannot sleep. *)
Definition receive_nowait : Py (World D) PyVal :=
  fun w =>
    match receive false [] w with
    | (Some r, w') => (r, w')
    | (None, w') => (Ok VNone, w')
    end.

(** [iter_pending(self)], run until the consumer has asked [fuel] times. *)
Fixpoint iter_pending (fuel : nat) (w : World D) : list PyVal * GenEnd * World D :=
  match fuel with
  | O => ([], Suspended, w)
  | S n =>
      match receive_nowait w with
      | (Raise e, w') => ([], Failed e, w')
      | (Ok VNone, w') => ([], Finished, w')
      | (Ok msg, w') =>
          let '(msgs, e, w'') := iter_pending n w' in (msg :: msgs, e, w'')
      end
  end.

(** One [next()] on [__iter__(self)]: [Return] is what it yields or raises,
    [Fallthrough] is the generator returning.  It yields what a blocking
    [receive] returns; an [IOError] ends the iteration when the port is
    closed, any other exception propagates. *)
Definition __iter__next (sched : list (World D -> World D)) (w : World D)
  : option (Flow PyVal) * World D :=
  match receive true sched w with
  | (None, w') => (None, w')
  | (Some (Ok msg), w') => (Some (Return (Ok msg)), w')
  | (Some (Raise e), w') =>
      if is_IOError e then
        if closed (self w') then (Some Fallthrough, w')
        else (Some (Return (Raise e)), w')
      else (Some (Return (Raise e)), w')
  end.

End Methods.
End BasePort.

(** ** class EchoPort *)

Module EchoPort.

(** EchoPort adds no attribute of its own and keeps [_locking = True]. *)
Inductive Attrs : Type := NoAttrs.

Definition is_input (a : Attrs) : Res bool := Ok true.
Definition is_output (a : Attrs) : Res bool := Ok true.
Definition _open : Py (HookSt Attrs) unit := ret tt.
Definition _close : Py (HookSt Attrs) unit := ret tt.

(** [def _receive(self, block): pass] returns [None]. *)
Definition _receive (block : bool) : Py (HookSt Attrs) PyVal := ret VNone.

(** [self._messages.append(message)] *)
Definition _send (message : ref) : Py (HookSt Attrs) unit :=
  fun hs => (Ok tt, mkHookSt (hs_heap hs) (hs_messages hs ++ [message]) (hs_drv hs)).

#[global] Instance cls : PortClass Attrs :=
  Build_PortClass Attrs true is_input is_output _open _close _receive _send.

Definition __init__ (name_arg autoreset_arg : PyVal) (h : Heap)
  : Res unit * World Attrs :=
  BasePort.__init__ name_arg autoreset_arg NoAttrs h.

(** [__iter__(self)]: the same loop as [iter_pending]. *)
Definition __iter__ (fuel : nat) (w : World Attrs) : list PyVal * GenEnd * World Attrs :=
  BasePort.iter_pending fuel w.

End EchoPort.

(** ** class MultiPort *)

(** What the generator [MultiPort._receive] yields: [message], or
    [(port, message)] with [yield_ports]; the port is given by its position
    in [self.ports]. *)
Inductive Yield : Type :=
| YMessage (message : PyVal)
| YPortMessage (port : nat) (message : PyVal).


Module MultiPort.
Section Methods.
Context {C : Type} `{PortClass C}.

(** The attributes [MultiPort.__init__] adds.  [ports] lists the child port
    objects by their state, one entry per object: it stands for a
    [self.ports] whose entries are pairwise different objects.  A list that
    names one object twice is not represented: what is proved of several
    children at once takes entries in pairwise different states, which are
    different objects. *)
Record Attrs : Type := mkAttrs {
  ports : list (Port C);
  yield_ports : bool
}.

(** [any(p.is_input() for p in self.ports)] *)
Fixpoint any_is_input (ps : list (Port C)) : Res bool :=
  match ps with
  | [] => Ok false
  | p :: rest =>
      match is_input (drv p) with
      | Raise e => Raise e
      | Ok true => Ok true
      | Ok false => any_is_input rest
      end
  end.

(** [any(p.is_output() for p in self.ports)] *)
Fixpoint any_is_output (ps : list (Port C)) : Res bool :=
  match ps with
  | [] => Ok false
  | p :: rest =>
      match is_output (drv p) with
      | Raise e => Raise e
      | Ok true => Ok true
      | Ok false => any_is_output rest
      end
  end.

(** The loop of [_send]: [for port in self.ports: ...]. *)
Fixpoint send_to_each (message : ref) (ps : list (Port C)) (h : Heap)
  : Res unit * (list (Port C) * Heap) :=
  match ps with
  | [] => (Ok tt, ([], h))
  | port :: rest =>
      let continue :=
        let '(r, (rest', h')) := send_to_each message rest h in
        (r, (port :: rest', h')) in
      match is_output (drv port) with
      | Raise e => (Raise e, (port :: rest, h))
      | Ok false => continue
      | Ok true =>
          if closed port then continue
          else
            match BasePort.send message (mkWorld h port) with
            | (Raise e, w) => (Raise e, (self w :: rest, heap w))
            | (Ok _, w) =>
                let '(r, (rest', h')) := send_to_each message rest (heap w) in
                (r, (self w :: rest', h'))
            end
      end
  end.

(** The inner loop of the generator [_receive]: one pass over the (already
    shuffled) ports, starting at position [i]; [fuel] bounds the items the
    consumer takes from each child. *)
Fixpoint sweep (fuel : nat) (yp : bool) (i : nat) (ps : list (Port C)) (h : Heap)
  : list Yield * GenEnd * (list (Port C) * Heap) :=
  match ps with
  | [] => ([], Finished, ([], h))
  | port :: rest =>
      let continue :=
        let '(ys, e, (rest', h')) := sweep fuel yp (S i) rest h in
        (ys, e, (port :: rest', h')) in
      match is_input (drv port) with
      | Raise e => ([], Failed e, (port :: rest, h))
      | Ok false => continue
      | Ok true =>
          if closed port then continue
          else
            let '(msgs, e, w) := BasePort.iter_pending fuel (mkWorld h port) in
            let ys := map (fun m => if yp then YPortMessage i m else YMessage m) msgs in
            match e with
            | Finished =>
                let '(ys', e', (rest', h')) := sweep fuel yp (S i) rest (heap w) in
                (ys ++ ys', e', (self w :: rest', h'))
            | _ => (ys, e, (self w :: rest, heap w))
            end
      end
  end.

Definition is_input (a : Attrs) : Res bool :=
  match ports a with
  | [] => Ok false
  | _ => any_is_input (ports a)
  end.

Definition is_output (a : Attrs) : Res bool :=
  match ports a with
  | [] => Ok false
  | _ => any_is_output (ports a)
  end.

Definition _open : Py (HookSt Attrs) unit := ret tt.
Definition _close : Py (HookSt Attrs) unit := ret tt.

Definition _send (message : ref) : Py (HookSt Attrs) unit :=
  fun hs =>
    let '(r, (ps, h)) := send_to_each message (ports (hs_drv hs)) (hs_heap hs) in
    (r, mkHookSt h (hs_messages hs) (mkAttrs ps (yield_ports (hs_drv hs)))).

(** [_receive] contains [yield]: calling it runs none of its body and
    returns a generator object. *)
Definition _receive (block : bool) : Py (HookSt Attrs) PyVal :=
  ret (VGenerator block).

(** Running the body of the generator made by [_receive(block)].  Each
    element of [shuffles] is the permutation [shuffle(self.ports)] applies in
    one round of [while True]. *)
Fixpoint _receive_body (block : bool) (fuel : nat)
         (shuffles : list (list (Port C) -> list (Port C))) (hs : HookSt Attrs)
  : list Yield * GenEnd * HookSt Attrs :=
  match shuffles with
  | [] => ([], Suspended, hs)
  | shuffle :: later =>
      let a := hs_drv hs in
      let '(ys, e, (ps, h)) :=
        sweep fuel (yield_ports a) O (shuffle (ports a)) (hs_heap hs) in
      let hs' := mkHookSt h (hs_messages hs) (mkAttrs ps (yield_ports a)) in
      match e with
      | Finished =>
          if block then
            let '(ys', e', hs'') := _receive_body block fuel later hs' in
            (ys ++ ys', e', hs'')
          else (ys, Finished, hs')
      | _ => (ys, e, hs')
      end
  end.

(** MultiPort keeps [_locking = True]. *)
#[local] Instance cls : PortClass Attrs :=
  Build_PortClass Attrs true is_input is_output _open _close _receive _send.

(** [__init__(self, ports, yield_ports)]: [super().__init__(self, "multi")]
    binds [name] to the port itself and [autoreset] to the string; the
    attributes [ports] and [yield_ports] are assigned afterwards ([_open] is
    [pass] and does not read them). *)
Definition __init__ (ports_arg : list (Port C)) (yield_ports_arg : bool) (h : Heap)
  : Res unit * World Attrs :=
  match BasePort.__init__ VSelf (VStr "multi") (mkAttrs [] false) h with
  | (Raise e, w) => (Raise e, w)
  | (Ok _, w) => (Ok tt, set_drv (mkAttrs ports_arg yield_ports_arg) w)
  end.

End Methods.
Arguments Attrs C : clear implicits.
#[global] Existing Instance cls.
End MultiPort.

(** ** backends/__init__.py *)

Module Backends.

(** A module object, as far as the registry looks at it: whether it has the
    attributes [get_devices] and [Port] (and what they are). *)
Record PyModule : Type := mkPyModule {
  module_file : string;
  attr_get_devices : option string;
  attr_Port : option string
}.

Definition hasattr_get_devices (module : PyModule) : bool :=
  match attr_get_devices module with Some _ => true | None => false end.
Definition hasattr_Port (module : PyModule) : bool :=
  match attr_Port module with Some _ => true | None => false end.

(** What [import_module(f'{__name__}.{name}')] does: it returns the module
    object or raises what the module's code (or the import machinery)
    raised. *)
Inductive Import : Type :=
| Imported (module : PyModule)
| ImportRaises (e : PyExc).

(** The state of the backends directory when discovery runs: the names
    [iter_modules] yields, in order, each with what [import_module] does. *)
Abbreviation Found := (list (string * Import)) (only parsing).

(** The body of the [for] loop of [get_available_backends]: [Ok] is the
    mapping with which the loop goes on.  [except Exception: continue] skips
    a candidate whose import raises an [Exception]; anything else the import
    raises leaves the function. *)
Definition discover (backends : gmap string PyModule) (entry : string * Import)
  : Res (gmap string PyModule) :=
  let '(name, imported) := entry in
  match imported with
  | ImportRaises e => if is_Exception e then Ok backends else Raise e
  | Imported module =>
      if negb (hasattr_get_devices module) || negb (hasattr_Port module)
      then Ok backends
      else Ok (<[name := module]> backends)
  end.

(** The [for] loop, from the mapping [backends] on. *)
Fixpoint discover_all (backends : gmap string PyModule) (found : Found)
  : Res (gmap string PyModule) :=
  match found with
  | [] => Ok backends
  | entry :: rest =>
      match discover backends entry with
      | Ok backends' => discover_all backends' rest
      | Raise e => Raise e
      end
  end.

Definition get_available_backends (found : Found) : Res (gmap string PyModule) :=
  discover_all ∅ found.

Section GetBackend.
(** [repr] of a [str], a Python builtin ([{name!r}] in the f-string). *)
Variable py_repr : string -> string.

(** [get_backend(name)]: discovery is run again on every call. *)
Definition get_backend (found : Found) (name : string) : Res PyModule :=
  match get_available_backends found with
  | Raise e => Raise e
  | Ok backends =>
      match backends !! name with
      | None => Raise (ValueError ("Unknown backend " +:+ py_repr name))
      | Some module => Ok module
      end
  end.
End GetBackend.

End Backends.

(** ** Call sequences *)

Section Calls.
Context {D : Type} `{PortClass D}.

(** [n] successive calls of [receive(block)], each of them observed until
    it returns or the schedule [sched] ends; the results come in call
    order. *)
Fixpoint receive_n (n : nat) (block : bool) (sched : list (World D -> World D))
         (w : World D) : list (option (Res PyVal)) * World D :=
  match n with
  | O => ([], w)
  | S n' =>
      let '(r, w') := BasePort.receive block sched w in
      let '(rs, w'') := receive_n n' block sched w' in
      (r :: rs, w'')
  end.

(** The public operations of a port, as a caller issues them. *)
Inductive Call : Type :=
| CallClose
| CallSend (msg : ref)
| CallReceive (block : bool)
| CallReset
| CallPanic
| CallIterPending (fuel : nat).

(** The state a call leaves behind, whether it returned or raised. *)
Definition run_call (c : Call) (w : World D) : World D :=
  match c with
  | CallClose => snd (BasePort.close w)
  | CallSend msg => snd (BasePort.send msg w)
  | CallReceive block => snd (BasePort.receive block [] w)
  | CallReset => snd (BasePort.reset w)
  | CallPanic => snd (BasePort.panic w)
  | CallIterPending fuel => snd (BasePort.iter_pending fuel w)
  end.

Definition run_calls (cs : list Call) (w : World D) : World D :=
  foldl (fun w c => run_call c w) w cs.

(** Another thread calling [close()] while this one sleeps. *)
Definition other_thread_closes (w : World D) : World D := snd (BasePort.close w).

End Calls.

(** ** Frame conditions *)

(** [w'] differs from [w] at most in the heap, the pending queue, the
    subclass attributes and lock, send, receive or sleep events: the
    lifecycle attributes are the same and no transport close happened. *)
Definition same_lifecycle {D} (w w' : World D) : Prop :=
  closed (self w') = closed (self w) /\
  name (self w') = name (self w) /\
  autoreset (self w') = autoreset (self w) /\
  count_events is_EvClose (trace (self w')) = count_events is_EvClose (trace (self w)).

(** ** Ports used in the examples *)

Module Examples.

(** An output-only transport whose [_send] fails with an I/O error, as a
    disconnected device does. *)
Inductive Unplugged : Type := UnpluggedAttrs.

#[global] Instance unplugged_cls : PortClass Unplugged :=
  Build_PortClass Unplugged true
    (fun _ => Ok false)
    (fun _ => Ok true)
    (ret tt)
    (ret tt)
    (fun _ => ret VNone)
    (fun _ => raise (IOError "device unplugged")).

(** A transport whose [_close] fails, as a busy device does. *)
Inductive Stuck : Type := StuckAttrs.

#[global] Instance stuck_cls : PortClass Stuck :=
  Build_PortClass Stuck true
    (fun _ => Ok false)
    (fun _ => Ok true)
    (ret tt)
    (raise (IOError "device busy"))
    (fun _ => ret VNone)
    (fun _ => ret tt).


(** An output-only transport whose [_send] fails with an error that is not
    an I/O error, as a driver binding does on a bad handle. *)
Inductive Crashing : Type := CrashingAttrs.

#[global] Instance crashing_cls : PortClass Crashing :=
  Build_PortClass Crashing true
    (fun _ => Ok false)
    (fun _ => Ok true)
    (ret tt)
    (ret tt)
    (fun _ => ret VNone)
    (fun _ => raise (RuntimeError "driver error")).


(** [class Shared(EchoPort): _locking = False]: an echo port that opts out
    of locking, as the docstring of [BasePort] offers. *)
Inductive Shared : Type := SharedAttrs.

#[global] Instance shared_cls : PortClass Shared :=
  Build_PortClass Shared false
    (fun _ => Ok true)
    (fun _ => Ok true)
    (ret tt)
    (ret tt)
    (fun _ => ret VNone)
    (fun message hs =>
       (Ok tt, mkHookSt (hs_heap hs) (hs_messages hs ++ [message]) (hs_drv hs))).

(** [Unplugged(autoreset=True)] *)
Definition unplugged : World Unplugged :=
  snd (BasePort.__init__ VNone (VBool true) UnpluggedAttrs []).

(** [Unplugged()] *)
Definition unplugged_plain : World Unplugged :=
  snd (BasePort.__init__ VNone (VBool false) UnpluggedAttrs []).

(** [EchoPort()] on a heap holding two messages made by the caller. *)
Definition note_a : Message := MessageBytes [144; 60; 100].
Definition note_b : Message := MessageBytes [128; 60; 0].

Definition echo : World EchoPort.Attrs :=
  snd (EchoPort.__init__ VNone (VBool false) [note_a; note_b]).

(** The same port after [close()]. *)
Definition echo_closed : World EchoPort.Attrs := snd (BasePort.close echo).

(** [a = EchoPort(); a.send(note_a)] and [b = EchoPort(); b.send(note_b)]:
    two ports with one buffered message each. *)
Definition echo_a : World EchoPort.Attrs := snd (BasePort.send 0%nat echo).
Definition echo_b : World EchoPort.Attrs :=
  snd (BasePort.send 1%nat (set_heap (heap echo_a) echo)).

(** [p = EchoPort(); p.send(note_a); p.send(note_b); p.close()]: a closed
    port with two buffered messages. *)
Definition echo_ab_closed : World EchoPort.Attrs :=
  snd (BasePort.close (snd (BasePort.send 1%nat (snd (BasePort.send 0%nat echo))))).

(** [s = Shared()] on the same heap, and the same port after
    [s.send(note_a)], a call that raises once the copy has been queued. *)
Definition shared : World Shared :=
  snd (BasePort.__init__ VNone (VBool false) SharedAttrs [note_a; note_b]).
Definition shared_a : World Shared := snd (BasePort.send 0%nat shared).

(** [MultiPort([a, b])] *)
Definition multi : World (MultiPort.Attrs EchoPort.Attrs) :=
  snd (MultiPort.__init__ [self echo_a; self echo_b] false (heap echo_b)).

(** [MultiPort([])] *)
Definition multi_empty : World (MultiPort.Attrs EchoPort.Attrs) :=
  snd (MultiPort.__init__ [] false []).

(** A registry directory with a working backend, one whose import raises
    (the library it wraps is not installed) and one that lacks [Port]. *)
Definition found : list (string * Backends.Import) :=
  [("alsamidi", Backends.ImportRaises (ImportError "No module named 'alsa_midi'"));
   ("fluidsynth",
    Backends.Imported
      (Backends.mkPyModule "fluidsynth/__init__.py" (Some "get_devices") (Some "Port")));
   ("broken",
    Backends.Imported (Backends.mkPyModule "broken/__init__.py" (Some "get_devices") None))].

(** The same directory with one more candidate, which calls [sys.exit()]
    when imported. *)
Definition found_exiting : list (string * Backends.Import) :=
  found ++ [("exiting", Backends.ImportRaises SystemExit)].

(** [repr] on names without quotes, backslashes or control characters. *)
Definition plain_repr (s : string) : string := "'" +:+ s +:+ "'".

End Examples.

(** ** Reading the children of a MultiPort *)



(** ** Lock discipline *)

(** Walks a trace with the number of [with self._lock] blocks the port is
    inside (with the re-entrant lock, the number of times it holds the
    lock): an exit needs a block to leave, a transport send, receive or close
    must happen inside a block, and a sleep outside every block.  The result
    is the number of blocks the port is inside at the end, or [None] when
    the trace breaks one of these rules. *)
Fixpoint lock_walk (held : nat) (t : list Event) : option nat :=
  match t with
  | [] => Some held
  | e :: t' =>
      match e, held with
      | EvAcquire, _ => lock_walk (S held) t'
      | EvRelease, O => None
      | EvRelease, S h => lock_walk h t'
      | EvOpen, _ => lock_walk held t'
      | (EvClose | EvSend _ | EvReceive _), O => None
      | (EvClose | EvSend _ | EvReceive _), S _ => lock_walk held t'
      | EvSleep, O => lock_walk held t'
      | EvSleep, S _ => None
      end
  end.

(** From [w] to [w'] the port only added events, and they keep the lock
    discipline when the port is inside [held] blocks at the start, with as
    many at the end. *)
Definition lock_disciplined {D} (held : nat) (w w' : World D) : Prop :=
  exists delta,
    trace (self w') = trace (self w) ++ delta /\
    lock_walk held delta = Some held.

(** ** The context manager and finaliser of BasePort *)

Module ContextManager.
Section Methods.
Context {D : Type} `{PortClass D}.

(** [__enter__(self)]: returns [self]. *)
Definition __enter__ : Py (World D) PyVal := ret VSelf.

(** [__exit__(self, type, value, traceback)]: closes the port and returns
    [False], so an exception of the block is not suppressed. *)
Definition __exit__ : Py (World D) bool :=
  (BasePort.close ;; ret false)%py.

(** [__del__(self)] *)
Definition __del__ : Py (World D) unit := BasePort.close.

(** [with port: body].  [Ok None] would be a block whose exception
    [__exit__] suppressed. *)
Definition with_port {A} (body : Py (World D) A) : Py (World D) (option A) :=
  fun w =>
    let '(_, w0) := __enter__ w in
    match body w0 with
    | (Ok a, w1) =>
        match __exit__ w1 with
        | (Ok _, w2) => (Ok (Some a), w2)
        | (Raise e, w2) => (Raise e, w2)
        end
    | (Raise e, w1) =>
        match __exit__ w1 with
        | (Ok suppress, w2) => if suppress then (Ok None, w2) else (Raise e, w2)
        | (Raise e', w2) => (Raise e', w2)
        end
    end.

End Methods.
End ContextManager.

(** ** types/device.py *)

Module Device.

(** [Device(name, backend, is_input, is_output)]; [backend] is the port
    class. *)
Record t (B : Type) : Type := mk {
  name : string;
  backend : B;
  is_input : bool;
  is_output : bool
}.
Arguments mk {B} _ _ _ _.
Arguments name {B} _.
Arguments backend {B} _.
Arguments is_input {B} _.
Arguments is_output {B} _.

(** A port class as a callable: [cls(name=..., autoreset=...)] on a heap. *)
Definition Constructor (D : Type) : Type :=
  PyVal -> PyVal -> Heap -> Res unit * World D.

(** [open(self, **kwargs)]: [self.backend(name=self.name, **kwargs)];
    [autoreset_kw] is the [autoreset] keyword when the caller gives one
    ([BasePort.__init__] defaults it to [False]). *)
Definition open {D} (d : t (Constructor D)) (autoreset_kw : option PyVal) (h : Heap)
  : Res unit * World D :=
  backend d (VStr (name d)) (default (VBool false) autoreset_kw) h.

End Device.

(** ** backends/kdmapi *)

Module KDMAPI.

(** What the KDMAPI driver was asked to do, oldest call first. *)
Inductive DriverCall : Type :=
| InitializeKDMAPIStream
| TerminateKDMAPIStream
| SendDirectData (data : Z)
| SendDirectLongDataNoBuf (data : list Z).

Record Attrs : Type := mkAttrs {
  driver_calls : list DriverCall
}.

(** [packed_message <<= 8; packed_message |= byte] *)
Definition pack_step (packed_message byte : Z) : Z :=
  Z.lor (Z.shiftl packed_message 8) byte.

(** The loop [for byte in reversed(message.to_bytes())], from
    [packed_message = 0]. *)
Definition pack_message (data : list Z) : Z :=
  fold_left pack_step (rev data) 0.

Section Port.
(** [message.to_bytes()] and [isinstance(message, BaseMessageSystem)], both
    of libmidi. *)
Variable to_bytes : Message -> list Z.
Variable is_system : Message -> bool.

Definition is_input (a : Attrs) : Res bool := Ok false.
Definition is_output (a : Attrs) : Res bool := Ok true.

(** [KDMAPI.TerminateKDMAPIStream()] *)
Definition _close : Py (HookSt Attrs) unit :=
  fun hs =>
    (Ok tt, mkHookSt (hs_heap hs) (hs_messages hs)
                     (mkAttrs (driver_calls (hs_drv hs) ++ [TerminateKDMAPIStream]))).

Definition _send (message : ref) : Py (HookSt Attrs) unit :=
  fun hs =>
    match hs_heap hs !! message with
    | None => (Raise (AttributeError "to_bytes"), hs)
    | Some m =>
        let call :=
          if is_system m then SendDirectLongDataNoBuf (to_bytes m)
          else SendDirectData (pack_message (to_bytes m)) in
        (Ok tt, mkHookSt (hs_heap hs) (hs_messages hs)
                         (mkAttrs (driver_calls (hs_drv hs) ++ [call])))
    end.

(** The class overrides neither [_locking], [_open] nor [_receive]: they
    are [BasePort]'s, and the two methods raise [NotImplementedError]. *)
Definition cls : PortClass Attrs :=
  Build_PortClass Attrs true is_input is_output
    (raise NotImplementedError)
    _close
    (fun _ => raise NotImplementedError)
    _send.

(** [Port.__init__(self, **kwargs)]: the call of [super().__init__] with
    the same keyword arguments, then [KDMAPI.InitializeKDMAPIStream()]. *)
Definition __init__ : Device.Constructor Attrs :=
  fun name_arg autoreset_arg h =>
    match BasePort.__init__ (H:=cls) name_arg autoreset_arg (mkAttrs []) h with
    | (Raise e, w) => (Raise e, w)
    | (Ok _, w) =>
        (Ok tt, set_drv (mkAttrs (driver_calls (drv (self w)) ++ [InitializeKDMAPIStream])) w)
    end.

(** [get_devices()]: [available] is [KDMAPI.IsKDMAPIAvailable()] and
    [omnimidi_name] the formatted name
    [f'OmniMIDI {maj}.{min}.{build} Rev. {rev}']. *)
Definition get_devices (available : bool) (omnimidi_name : string)
  : list (Device.t (Device.Constructor Attrs)) :=
  if available then [] ++ [Device.mk omnimidi_name __init__ false true] else [].

End Port.
End KDMAPI.

(** ** backends/rtmidi: device listing *)

Module RtMidi.

(** [get_devices()]: [input_names] and [output_names] are what
    [MidiIn().get_ports()] and [MidiOut().get_ports()] return, [Port] is the
    port class. *)
Definition get_devices {B} (Port : B) (input_names output_names : list string)
  : list (Device.t B) :=
  map (fun name =>
         Device.mk name Port
                   (bool_decide (name ∈ input_names))
                   (bool_decide (name ∈ output_names)))
      (input_names ++ output_names).

End RtMidi.

(** ** A listening port for the examples *)

Module MoreExamples.

(** An input-only port fed by another thread, as the ALSA port is when its
    destination can only be read: [_receive] has nothing to hand over and
    the messages arrive in the pending queue. *)
Inductive Listener : Type := ListenerAttrs.

#[global] Instance listener_cls : PortClass Listener :=
  Build_PortClass Listener true
    (fun _ => Ok true)
    (fun _ => Ok false)
    (ret tt)
    (ret tt)
    (fun _ => ret VNone)
    (fun _ => ret tt).

(** [Listener()] *)
Definition listener : World Listener :=
  snd (BasePort.__init__ VNone (VBool false) ListenerAttrs []).

(** [Listener(autoreset=True)] *)
Definition listener_autoreset : World Listener :=
  snd (BasePort.__init__ VNone (VBool true) ListenerAttrs []).

End MoreExamples.

(** * Verification *)

(** ** Reset and panic helpers *)

Lemma py_range_length (n : Z) : 0 <= n -> Z.of_nat (length (py_range n)) = n.
Proof.
  intros Hn. unfold py_range. rewrite length_map, length_seq. lia.
Qed.

Lemma py_range_lookup (n c : Z) :
  0 <= c < n -> py_range n !! Z.to_nat c = Some c.
Proof.
  intros Hc. unfold py_range.
  rewrite list_lookup_fmap.
  rewrite lookup_seq_lt by lia.
  simpl. f_equal. lia.
Qed.

Section Pairs.
Context {A B : Type} (f g : A -> B).

Lemma flat_map_pair_length (l : list A) :
  length (flat_map (fun a => [f a; g a]) l) = (2 * length l)%nat.
Proof.
  induction l as [|a l IH]; simpl; [reflexivity|]. rewrite IH. lia.
Qed.

Lemma flat_map_pair_lookup (l : list A) (i : nat) (a : A) :
  l !! i = Some a ->
  flat_map (fun a => [f a; g a]) l !! (2 * i)%nat = Some (f a) /\
  flat_map (fun a => [f a; g a]) l !! (2 * i + 1)%nat = Some (g a).
Proof.
  revert i. induction l as [|b l IH]; intros i Hi; [discriminate|].
  destruct i as [|i].
  - simpl in Hi. injection Hi as ->. split; reflexivity.
  - simpl in Hi. destruct (IH i Hi) as [H0 H1].
    replace (2 * S i)%nat with (S (S (2 * i))) by lia.
    replace (S (S (2 * i)) + 1)%nat with (S (S (2 * i + 1))) by lia.
    split; simpl; assumption.
Qed.
End Pairs.

Lemma reset_messages_pairs (n : Z) :
  reset_messages n =
  flat_map (fun c => [MessageControlChange c 123 0; MessageControlChange c 121 0])
           (py_range n).
Proof. reflexivity. Qed.

(** C8: for every [n >= 0], [reset_messages n] yields exactly [2 * n]
    control-change messages in channel-major order: for each channel [c] in
    [0 .. n-1], the message at position [2c] has controller 123 and value 0
    and the one at position [2c+1] has controller 121 and value 0; so
    [reset_messages 16] yields exactly 32 messages in that order. *)
Theorem C8_reset_messages_channel_major (n : Z) (Hn : 0 <= n) :
  Z.of_nat (length (reset_messages n)) = 2 * n /\
  (forall c : Z, 0 <= c < n ->
     reset_messages n !! Z.to_nat (2 * c) = Some (MessageControlChange c 123 0) /\
     reset_messages n !! Z.to_nat (2 * c + 1) = Some (MessageControlChange c 121 0)) /\
  length (reset_messages 16) = 32%nat /\
  reset_messages 16 =
    flat_map (fun c => [MessageControlChange c 123 0; MessageControlChange c 121 0])
             [0; 1; 2; 3; 4; 5; 6; 7; 8; 9; 10; 11; 12; 13; 14; 15].
Proof.
  rewrite reset_messages_pairs. split; [|split; [|split]].
  - rewrite flat_map_pair_length.
    pose proof (py_range_length n Hn). lia.
  - intros c Hc.
    pose proof (py_range_lookup n c Hc) as Hl.
    destruct (flat_map_pair_lookup
                (fun c => MessageControlChange c 123 0)
                (fun c => MessageControlChange c 121 0) _ _ _ Hl) as [H0 H1].
    replace (Z.to_nat (2 * c)) with (2 * Z.to_nat c)%nat by lia.
    replace (Z.to_nat (2 * c + 1)) with (2 * Z.to_nat c + 1)%nat by lia.
    split; assumption.
  - reflexivity.
  - reflexivity.
Qed.

Lemma C8_reset_messages_witness :
  0 <= 16 /\
  reset_messages 16 !! 30%nat = Some (MessageControlChange 15 123 0) /\
  reset_messages 16 !! 31%nat = Some (MessageControlChange 15 121 0).
Proof.
  split; [lia|].
  destruct (C8_reset_messages_channel_major 16 ltac:(lia)) as (_ & Hc & _ & _).
  apply (Hc 15). lia.
Defined.
(** ** Generic facts *)

Lemma count_events_app (p : Event -> bool) (t1 t2 : list Event) :
  count_events p (t1 ++ t2) = (count_events p t1 + count_events p t2)%nat.
Proof.
  induction t1 as [|e t1 IH]; simpl; [reflexivity|]. rewrite IH. lia.
Qed.

Lemma same_lifecycle_refl {D} (w : World D) : same_lifecycle w w.
Proof. repeat split. Qed.

Lemma same_lifecycle_trans {D} (w1 w2 w3 : World D) :
  same_lifecycle w1 w2 -> same_lifecycle w2 w3 -> same_lifecycle w1 w3.
Proof.
  intros (Ha & Hb & Hc & Hd) (Ha' & Hb' & Hc' & Hd').
  repeat split; congruence.
Qed.

Lemma same_lifecycle_log {D} (e : Event) (w : World D) :
  is_EvClose e = false -> same_lifecycle w (log e w).
Proof.
  intros He. repeat split. simpl.
  rewrite count_events_app. simpl. rewrite He. lia.
Qed.

Lemma same_lifecycle_set_heap {D} (h : list Message) (w : World D) :
  same_lifecycle w (set_heap h w).
Proof. repeat split. Qed.

Lemma same_lifecycle_set_messages {D} (q : list nat) (w : World D) :
  same_lifecycle w (set_messages q w).
Proof. repeat split. Qed.

Lemma same_lifecycle_call_hook {D A} (ev : Event) (f : Py (HookSt D) A) (w : World D) :
  is_EvClose ev = false -> same_lifecycle w (snd (call_hook ev f w)).
Proof.
  intros He. unfold call_hook.
  destruct (f _) as [r hs]. repeat split. simpl.
  rewrite count_events_app. simpl. rewrite He. lia.
Qed.

Create HintDb lifecycle.
#[local] Hint Resolve same_lifecycle_refl same_lifecycle_log same_lifecycle_set_heap
  same_lifecycle_set_messages same_lifecycle_call_hook : lifecycle.

Ltac chain w := apply (same_lifecycle_trans _ w).

(** ** The lock *)

Section LockFacts.
Context {D : Type} `{PortClass D}.

Lemma lock_enter_returns : _lock__enter__ D 0 = Ok (VBool true).
Proof. unfold _lock__enter__. destruct (_locking D); reflexivity. Qed.

Lemma lock_exit_locking : _locking D = true -> _lock__exit__ D 3 = Ok VNone.
Proof. intros Hlk. unfold _lock__exit__. rewrite Hlk. reflexivity. Qed.

Lemma lock_exit_unlocked :
  _locking D = false ->
  _lock__exit__ D 3 =
  Raise (TypeError "DummyLock.release() takes 1 positional argument but 4 were given").
Proof. intros Hlk. unfold _lock__exit__. rewrite Hlk. reflexivity. Qed.

(** The state a [with self._lock] block leaves, with either lock. *)
Lemma with_lock_state {A} (body : Py (World D) A) (w : World D) :
  snd (with_lock body w) = log EvRelease (snd (body (log EvAcquire w))).
Proof.
  unfold with_lock. rewrite lock_enter_returns.
  destruct (body (log EvAcquire w)) as [r w'].
  destruct (_lock__exit__ D 3); reflexivity.
Qed.

(** With the re-entrant lock the outcome of the block is the outcome of its
    body. *)
Lemma with_lock_locking {A} (body : Py (World D) A) (w : World D) :
  _locking D = true ->
  with_lock body w =
  (fst (body (log EvAcquire w)), log EvRelease (snd (body (log EvAcquire w)))).
Proof.
  intros Hlk. unfold with_lock.
  rewrite lock_enter_returns, (lock_exit_locking Hlk).
  destruct (body (log EvAcquire w)) as [r w']. reflexivity.
Qed.

(** With a [DummyLock] the block raises [TypeError] when it is left, after
    its body has run. *)
Lemma with_lock_unlocked {A} (body : Py (World D) A) (w : World D) :
  _locking D = false ->
  with_lock body w =
  (Raise (TypeError "DummyLock.release() takes 1 positional argument but 4 were given"),
   log EvRelease (snd (body (log EvAcquire w)))).
Proof.
  intros Hlk. unfold with_lock.
  rewrite lock_enter_returns, (lock_exit_unlocked Hlk).
  destruct (body (log EvAcquire w)) as [r w']. reflexivity.
Qed.

Lemma with_lock_ext {A} (body1 body2 : Py (World D) A) (w : World D) :
  body1 (log EvAcquire w) = body2 (log EvAcquire w) ->
  with_lock body1 w = with_lock body2 w.
Proof. intros Hb. unfold with_lock. rewrite Hb. reflexivity. Qed.

(** A block that returns normally was left through the re-entrant lock, and
    its body returned the same value. *)
Lemma with_lock_returns {A} (body : Py (World D) A) (w w' : World D) (a : A) :
  with_lock body w = (Ok a, w') ->
  _locking D = true /\ body (log EvAcquire w) = (Ok a, snd (body (log EvAcquire w))) /\
  w' = log EvRelease (snd (body (log EvAcquire w))).
Proof.
  destruct (_locking D) eqn:Hlk.
  - rewrite (with_lock_locking body w Hlk).
    destruct (body (log EvAcquire w)) as [r w1]. simpl.
    intros [= -> <-]. auto.
  - rewrite (with_lock_unlocked body w Hlk). discriminate.
Qed.

Lemma with_lock_same_lifecycle {A} (body : Py (World D) A) (w : World D) :
  same_lifecycle (log EvAcquire w) (snd (body (log EvAcquire w))) ->
  same_lifecycle w (snd (with_lock body w)).
Proof.
  intros Hb. rewrite with_lock_state.
  chain (log EvAcquire w); auto with lifecycle.
  chain (snd (body (log EvAcquire w))); auto with lifecycle.
Qed.

End LockFacts.

Section BasePortFacts.
Context {D : Type} `{PortClass D}.

Lemma send_same_lifecycle (msg : nat) (w : World D) :
  same_lifecycle w (snd (BasePort.send msg w)).
Proof.
  unfold BasePort.send.
  destruct (is_output _) as [[|]|e]; simpl; auto with lifecycle.
  destruct (closed (self w)); simpl; auto with lifecycle.
  apply with_lock_same_lifecycle.
  destruct (copy msg _) as [[msg'|e] h'] eqn:Hc; simpl.
  - chain (set_heap h' (log EvAcquire w)); auto with lifecycle.
  - auto with lifecycle.
Qed.

Lemma send_each_same_lifecycle (msgs : list Message) (w : World D) :
  same_lifecycle w (snd (BasePort.send_each msgs w)).
Proof.
  revert w. induction msgs as [|m rest IH]; intros w; simpl; auto with lifecycle.
  unfold bind.
  pose proof (send_same_lifecycle (length (heap w)) (set_heap (heap w ++ [m]) w)) as Hs.
  destruct (BasePort.send _ _) as [[[]|e] w1]; simpl in *.
  - chain w1; [|apply IH].
    chain (set_heap (heap w ++ [m]) w); auto with lifecycle.
  - chain (set_heap (heap w ++ [m]) w); auto with lifecycle.
Qed.

Lemma reset_same_lifecycle (w : World D) :
  same_lifecycle w (snd (BasePort.reset w)).
Proof.
  unfold BasePort.reset.
  destruct (closed (self w));
    [exact (same_lifecycle_refl w) | exact (send_each_same_lifecycle _ w)].
Qed.


End BasePortFacts.

(** ** receive *)

Section ReceiveFacts.
Context {D : Type} `{PortClass D}.


Lemma receive_poll_block_same_lifecycle (block : bool) (w : World D) :
  same_lifecycle w (snd (BasePort.receive_poll_block block w)).
Proof.
  unfold BasePort.receive_poll_block.
  pose proof (same_lifecycle_call_hook (EvReceive block) (_receive block) w eq_refl) as Hh.
  destruct (call_hook _ _ _) as [r w1]. simpl in Hh.
  destruct r as [msg|e]; simpl; [|assumption].
  destruct (truthy msg); simpl; [assumption|].
  destruct (_messages (self w1)) as [|m q]; simpl.
  - destruct block; simpl; [|assumption].
    destruct (closed (self w1)); simpl; assumption.
  - chain w1; auto with lifecycle.
Qed.

Lemma receive_iter_same_lifecycle (block : bool) (w : World D) :
  same_lifecycle w (snd (BasePort.receive_iter block w)).
Proof.
  unfold BasePort.receive_iter.
  pose proof (with_lock_same_lifecycle (BasePort.receive_poll_block block) w
                (receive_poll_block_same_lifecycle block _)) as Hw.
  destruct (with_lock _ w) as [[[msg|]|e] w1]; simpl in *; try assumption.
  chain w1; auto with lifecycle.
Qed.





(** The body of the polling block ends without returning only in a blocking
    call on an open port, after one transport call. *)
Lemma receive_poll_block_falls_off (block : bool) (w w' : World D) :
  BasePort.receive_poll_block block w = (Ok None, w') ->
  block = true /\ closed (self w) = false /\
  trace (self w') = trace (self w) ++ [EvReceive block].
Proof.
  unfold BasePort.receive_poll_block, call_hook.
  destruct (_receive block _) as [[msg|e] hs]; simpl; [|discriminate].
  destruct (truthy msg); simpl; [discriminate|].
  destruct (hs_messages hs); simpl; [|discriminate].
  destruct block; simpl; [|discriminate].
  destruct (closed (self w)); simpl; [discriminate|].
  intros [= <-]. simpl. auto.
Qed.

Lemma receive_poll_block_trace (block : bool) (w : World D) :
  trace (self (snd (BasePort.receive_poll_block block w))) =
  trace (self w) ++ [EvReceive block].
Proof.
  unfold BasePort.receive_poll_block, call_hook.
  destruct (_receive block _) as [[msg|e] hs]; simpl; [|reflexivity].
  destruct (truthy msg); simpl; [reflexivity|].
  destruct (hs_messages hs); simpl; [|reflexivity].
  destruct block; simpl; [|reflexivity].
  destruct (closed (self w)); reflexivity.
Qed.

(** A non-blocking [receive] always returns: its single pass through the
    loop body cannot reach the sleep. *)
Lemma receive_iter_nonblocking_returns (w : World D) :
  exists r, fst (BasePort.receive_iter false w) = Return r.
Proof.
  unfold BasePort.receive_iter.
  destruct (with_lock _ w) as [[[msg|]|e] w1] eqn:Hw; simpl; eauto.
  apply with_lock_returns in Hw. destruct Hw as (_ & Hb & _).
  apply receive_poll_block_falls_off in Hb. destruct Hb as [Hb _]. discriminate.
Qed.

Lemma receive_nonblocking_returns (sched : list (World D -> World D)) (w : World D) :
  exists r, fst (BasePort.receive false sched w) = Some r.
Proof.
  unfold BasePort.receive.
  destruct (BasePort.receive_prologue false w) as [[r|] w1]; simpl; eauto.
  destruct (receive_iter_nonblocking_returns w1) as [r Hr].
  destruct sched; simpl;
    destruct (BasePort.receive_iter false w1) as [[r'|] w2]; simpl in *;
    eauto; discriminate.
Qed.

(** An iteration of the polling loop reaches the sleep only on an open
    port with the re-entrant lock, in a blocking call, and after the lock
    has been released. *)
Lemma receive_iter_sleeps_unlocked (block : bool) (w w' : World D) :
  BasePort.receive_iter block w = (Fallthrough, w') ->
  block = true /\ closed (self w) = false /\ _locking D = true /\
  trace (self w') = trace (self w) ++ [EvAcquire; EvReceive block; EvRelease; EvSleep].
Proof.
  unfold BasePort.receive_iter.
  destruct (with_lock _ w) as [[[msg|]|e] w1] eqn:Hw; try discriminate.
  intros [= <-].
  apply with_lock_returns in Hw. destruct Hw as (Hlk & Hb & ->).
  apply receive_poll_block_falls_off in Hb. destruct Hb as (Hbl & Hc & Htr).
  repeat split; try assumption.
  simpl. rewrite Htr. simpl. rewrite <- !app_assoc. reflexivity.
Qed.

(** On a port with a [DummyLock] the first [with self._lock] of [receive]
    raises when it is left, whatever is pending: the call ends there, after
    popping the oldest pending message if there is one. *)
Lemma receive_prologue_unlocked (block : bool) (w : World D) :
  _locking D = false ->
  is_input (drv (self w)) = Ok true ->
  BasePort.receive_prologue block w =
  (Return (Raise (TypeError
     "DummyLock.release() takes 1 positional argument but 4 were given")),
   log EvRelease (set_messages (tl (_messages (self w))) (log EvAcquire w))).
Proof.
  intros Hlk Hin. unfold BasePort.receive_prologue.
  rewrite Hin, (with_lock_unlocked _ w Hlk).
  unfold BasePort.receive_pending_block. simpl.
  destruct (_messages (self w)) as [|m q] eqn:Hq; simpl; [|reflexivity].
  unfold set_messages, log. simpl. rewrite Hq. reflexivity.
Qed.

Lemma receive_prologue_falls_through (block : bool) (w : World D) :
  _locking D = true ->
  is_input (drv (self w)) = Ok true ->
  _messages (self w) = [] ->
  closed (self w) = false ->
  BasePort.receive_prologue block w = (Fallthrough, log EvRelease (log EvAcquire w)).
Proof.
  intros Hlk Hin Hq Hc. unfold BasePort.receive_prologue.
  rewrite Hin, (with_lock_locking _ w Hlk).
  unfold BasePort.receive_pending_block. simpl. rewrite Hq. simpl. rewrite Hc.
  reflexivity.
Qed.

Lemma receive_loop_returns (block : bool) (sched : list (World D -> World D))
      (w w' : World D) (r : Res PyVal) :
  BasePort.receive_iter block w = (Return r, w') ->
  BasePort.receive_loop block sched w = (Some r, w').
Proof.
  intros Hi. destruct sched; simpl; rewrite Hi; reflexivity.
Qed.

Lemma receive_loop_closed (sched : list (World D -> World D)) (w : World D) :
  closed (self w) = true ->
  exists r w',
    BasePort.receive_iter true w = (Return r, w') /\
    BasePort.receive_loop true sched w = (Some r, w').
Proof.
  intros Hc.
  destruct (BasePort.receive_iter true w) as [[r|] w'] eqn:Hi.
  - exists r, w'. split; [reflexivity|].
    destruct sched; simpl; rewrite Hi; reflexivity.
  - apply receive_iter_sleeps_unlocked in Hi. destruct Hi as (_ & Ho & _).
    congruence.
Qed.

Lemma receive_iter_return_no_sleep (block : bool) (w w' : World D) (r : Res PyVal) :
  BasePort.receive_iter block w = (Return r, w') ->
  count_events is_EvSleep (trace (self w')) = count_events is_EvSleep (trace (self w)).
Proof.
  unfold BasePort.receive_iter.
  pose proof (with_lock_state (BasePort.receive_poll_block block) w) as Hst.
  pose proof (receive_poll_block_trace block (log EvAcquire w)) as Htr.
  destruct (with_lock _ w) as [[[msg|]|e] w1]; simpl in Hst; try discriminate;
    intros [= _ <-]; rewrite Hst; simpl; rewrite Htr; simpl;
    rewrite !count_events_app; simpl; lia.
Qed.

Lemma receive_loop_closing_schedule
      (pre post : list (World D -> World D)) (closer : World D -> World D) (w : World D) :
  (forall w0, closed (self (closer w0)) = true) ->
  fst (BasePort.receive_loop true (pre ++ closer :: post) w) <> None.
Proof.
  intros Hcl. revert w. induction pre as [|o pre IH]; intros w; simpl.
  - destruct (BasePort.receive_iter true w) as [[r|] w1]; simpl; [discriminate|].
    destruct (receive_loop_closed post (closer w1) (Hcl w1)) as (r & w2 & _ & Hl).
    rewrite Hl. discriminate.
  - destruct (BasePort.receive_iter true w) as [[r|] w1]; simpl; [discriminate|].
    apply IH.
Qed.

(** The polling iteration that finds the port closed, nothing from the
    transport and nothing pending, on a port with the re-entrant lock. *)
Lemma receive_iter_closed_idle (w : World D) (v : PyVal) (hs : HookSt D) :
  _locking D = true ->
  closed (self w) = true ->
  _receive true (mkHookSt (heap w) (_messages (self w)) (drv (self w))) = (Ok v, hs) ->
  truthy v = false ->
  hs_messages hs = [] ->
  fst (BasePort.receive_iter true w) =
  Return (Raise (IOError "port closed during receive()")).
Proof.
  intros Hlk Hc Hhook Hv Hq.
  unfold BasePort.receive_iter. rewrite (with_lock_locking _ w Hlk).
  unfold BasePort.receive_poll_block, call_hook. simpl.
  rewrite Hhook. simpl. rewrite Hv, Hq, Hc. reflexivity.
Qed.

End ReceiveFacts.

Section ReceiveSpec.
Context {D : Type} `{PortClass D}.

Lemma receive_pending (block : bool) (sched : list (World D -> World D))
      (w : World D) (m : nat) (q : list nat) :
  _locking D = true ->
  is_input (drv (self w)) = Ok true ->
  _messages (self w) = m :: q ->
  BasePort.receive block sched w =
  (Some (Ok (VMsg m)), log EvRelease (set_messages q (log EvAcquire w))).
Proof.
  intros Hlk Hin Hq. unfold BasePort.receive, BasePort.receive_prologue.
  rewrite Hin, (with_lock_locking _ w Hlk).
  unfold BasePort.receive_pending_block. simpl. rewrite Hq. reflexivity.
Qed.

Lemma receive_n_drains (block : bool) (sched : list (World D -> World D))
      (ms : list nat) (w : World D) :
  _locking D = true ->
  is_input (drv (self w)) = Ok true ->
  _messages (self w) = ms ->
  exists w',
    receive_n (length ms) block sched w = (map (fun m => Some (Ok (VMsg m))) ms, w') /\
    _messages (self w') = [] /\
    closed (self w') = closed (self w) /\
    heap w' = heap w.
Proof.
  intros Hlk. revert w. induction ms as [|m q IH]; intros w Hin Hq.
  - exists w. simpl. auto.
  - simpl. rewrite (receive_pending block sched w m q Hlk Hin Hq).
    destruct (IH (log EvRelease (set_messages q (log EvAcquire w))))
      as (w' & Hn & Hq' & Hc & Hh); [assumption|reflexivity|].
    exists w'. rewrite Hn. auto.
Qed.

(** What [receive] does to pending messages on a port with a [DummyLock]:
    each call pops the oldest one and raises. *)
Lemma receive_unlocked (block : bool) (sched : list (World D -> World D)) (w : World D) :
  _locking D = false ->
  is_input (drv (self w)) = Ok true ->
  BasePort.receive block sched w =
  (Some (Raise (TypeError
     "DummyLock.release() takes 1 positional argument but 4 were given")),
   log EvRelease (set_messages (tl (_messages (self w))) (log EvAcquire w))).
Proof.
  intros Hlk Hin. unfold BasePort.receive.
  rewrite (receive_prologue_unlocked block w Hlk Hin). reflexivity.
Qed.

Lemma receive_n_unlocked (block : bool) (sched : list (World D -> World D))
      (ms : list nat) (w : World D) :
  _locking D = false ->
  is_input (drv (self w)) = Ok true ->
  _messages (self w) = ms ->
  exists w',
    receive_n (length ms) block sched w =
      (repeat (Some (Raise (TypeError
         "DummyLock.release() takes 1 positional argument but 4 were given")))
         (length ms), w') /\
    _messages (self w') = [] /\
    closed (self w') = closed (self w) /\
    heap w' = heap w.
Proof.
  intros Hlk. revert w. induction ms as [|m q IH]; intros w Hin Hq.
  - exists w. simpl. auto.
  - simpl. rewrite (receive_unlocked block sched w Hlk Hin), Hq. simpl.
    destruct (IH (log EvRelease (set_messages q (log EvAcquire w))))
      as (w' & Hn & Hq' & Hc & Hh); [assumption|reflexivity|].
    exists w'. rewrite Hn. auto.
Qed.

(** C3, what the code does: on an input port whose pending queue is
    non-empty, [receive] (with either value of [block], whatever the other
    threads do, and whether or not the port is closed) pops the oldest
    queued message at once, without calling the transport and without
    sleeping.  On a port that has the re-entrant lock ([_locking] true, the
    default) the call returns that message, and repeated calls return the
    queued messages in the order they were appended until the queue is
    empty.  On a port whose class sets [_locking = False] the call raises
    [TypeError] instead, from [DummyLock.__exit__] when the [with] block is
    left: the popped message is lost, and repeated calls empty the queue
    without delivering anything. *)
Theorem C3_receive_pops_oldest_first
        (w : World D) (block : bool) (sched : list (World D -> World D))
        (m : nat) (q : list nat) :
  is_input (drv (self w)) = Ok true ->
  _messages (self w) = m :: q ->
  (_locking D = true ->
   (exists w',
       BasePort.receive block sched w = (Some (Ok (VMsg m)), w') /\
       _messages (self w') = q /\
       closed (self w') = closed (self w) /\
       heap w' = heap w /\
       trace (self w') = trace (self w) ++ [EvAcquire; EvRelease]) /\
   (exists w'',
       receive_n (length (m :: q)) block sched w =
       (map (fun r => Some (Ok (VMsg r))) (m :: q), w'') /\
       _messages (self w'') = [] /\
       closed (self w'') = closed (self w))) /\
  (_locking D = false ->
   (exists w',
       BasePort.receive block sched w =
         (Some (Raise (TypeError
            "DummyLock.release() takes 1 positional argument but 4 were given")), w') /\
       _messages (self w') = q /\
       closed (self w') = closed (self w) /\
       heap w' = heap w /\
       trace (self w') = trace (self w) ++ [EvAcquire; EvRelease]) /\
   (exists w'',
       receive_n (length (m :: q)) block sched w =
       (repeat (Some (Raise (TypeError
          "DummyLock.release() takes 1 positional argument but 4 were given")))
          (length (m :: q)), w'') /\
       _messages (self w'') = [] /\
       closed (self w'') = closed (self w))).
Proof.
  intros Hin Hq. split; intros Hlk; split.
  - eexists. split; [apply (receive_pending block sched w m q Hlk Hin Hq)|].
    simpl. repeat split. rewrite <- app_assoc. reflexivity.
  - destruct (receive_n_drains block sched (m :: q) w Hlk Hin Hq)
      as (w'' & Hn & Hq' & Hc & _).
    exists w''. auto.
  - eexists. split; [apply (receive_unlocked block sched w Hlk Hin)|].
    rewrite Hq. simpl. repeat split. rewrite <- app_assoc. reflexivity.
  - destruct (receive_n_unlocked block sched (m :: q) w Hlk Hin Hq)
      as (w'' & Hn & Hq' & Hc & _).
    exists w''. auto.
Qed.

(** C2: on an input port (with the re-entrant lock) that is closed and has
    nothing pending, [receive(block=False)] returns [None];
    [receive(block=True)] raises
    [ValueError('receive() called on closed port')], which is not the
    [IOError] that the docstring of [receive] announces and that the polling
    loop raises when the port closes during the call, so [__iter__], which
    ends the iteration on [IOError] only, propagates it. *)
Theorem C2_receive_on_closed_empty_port
        (w : World D) (sched : list (World D -> World D)) :
  _locking D = true ->
  is_input (drv (self w)) = Ok true ->
  _messages (self w) = [] ->
  closed (self w) = true ->
  fst (BasePort.receive false sched w) = Some (Ok VNone) /\
  fst (BasePort.receive true sched w) =
    Some (Raise (ValueError "receive() called on closed port")) /\
  is_IOError (ValueError "receive() called on closed port") = false /\
  fst (BasePort.__iter__next sched w) =
    Some (Return (Raise (ValueError "receive() called on closed port"))).
Proof.
  intros Hlk Hin Hq Hc.
  assert (Hr : forall block,
             BasePort.receive block sched w =
             (Some (if block
                    then Raise (ValueError "receive() called on closed port")
                    else Ok VNone),
              log EvRelease (log EvAcquire w))).
  { intros block. unfold BasePort.receive, BasePort.receive_prologue.
    rewrite Hin, (with_lock_locking _ w Hlk).
    unfold BasePort.receive_pending_block. simpl. rewrite Hq. simpl. rewrite Hc.
    destruct block; reflexivity. }
  repeat split.
  - rewrite Hr. reflexivity.
  - rewrite Hr. reflexivity.
  - unfold BasePort.__iter__next. rewrite Hr. reflexivity.
Qed.

(** C5: in a blocking [receive], an iteration of the polling loop that
    starts with the closed flag set ends the call in that very iteration,
    without sleeping and whatever the rest of the schedule is; when the
    transport yields nothing and the pending queue is empty, it ends with
    [IOError('port closed during receive()')].  So a call blocked in the
    loop returns or raises in the first iteration after another thread has
    closed the port.  The loop is reached, and the [IOError] is what the
    call raises, on ports with the re-entrant lock; on a port whose class
    sets [_locking = False] no [receive] gets as far as the loop (the first
    [with self._lock] raises when it is left), so no call is ever blocked
    there. *)
Theorem C5_closed_port_ends_blocking_receive
        (w : World D) (sched : list (World D -> World D)) :
  closed (self w) = true ->
  (exists r w',
      BasePort.receive_iter true w = (Return r, w') /\
      BasePort.receive_loop true sched w = (Some r, w') /\
      count_events is_EvSleep (trace (self w')) =
      count_events is_EvSleep (trace (self w))) /\
  (_locking D = true ->
   forall v hs,
      _receive true (mkHookSt (heap w) (_messages (self w)) (drv (self w))) = (Ok v, hs) ->
      truthy v = false ->
      hs_messages hs = [] ->
      fst (BasePort.receive_loop true sched w) =
      Some (Raise (IOError "port closed during receive()"))) /\
  (forall (pre post : list (World D -> World D)) (closer : World D -> World D) (w0 : World D),
      (forall w1, closed (self (closer w1)) = true) ->
      fst (BasePort.receive_loop true (pre ++ closer :: post) w0) <> None) /\
  (_locking D = false ->
   forall (block : bool) (w0 : World D),
      exists r, fst (BasePort.receive_prologue block w0) = Return r /\
                fst (BasePort.receive block sched w0) = Some r).
Proof.
  intros Hc. split; [|split; [|split]].
  - destruct (receive_loop_closed sched w Hc) as (r & w' & Hi & Hl).
    exists r, w'. repeat split; try assumption.
    apply (receive_iter_return_no_sleep true w w' r Hi).
  - intros Hlk v hs Hhook Hv Hq.
    destruct (receive_loop_closed sched w Hc) as (r & w' & Hi & Hl).
    rewrite Hl. simpl. f_equal.
    pose proof (receive_iter_closed_idle w v hs Hlk Hc Hhook Hv Hq) as Hr.
    rewrite Hi in Hr. simpl in Hr. congruence.
  - intros pre post closer w0 Hcl.
    apply receive_loop_closing_schedule. assumption.
  - intros Hlk block w0. unfold BasePort.receive.
    destruct (is_input (drv (self w0))) as [[|]|e] eqn:Hin.
    + rewrite (receive_prologue_unlocked block w0 Hlk Hin). simpl. eauto.
    + unfold BasePort.receive_prologue. rewrite Hin. simpl. eauto.
    + unfold BasePort.receive_prologue. rewrite Hin. simpl. eauto.
Qed.

End ReceiveSpec.

Lemma C3_receive_witness :
  (exists w'',
     receive_n 2 true [] Examples.echo_ab_closed =
     ([Some (Ok (VMsg 2%nat)); Some (Ok (VMsg 3%nat))], w'') /\
     _messages (self w'') = [] /\
     closed (self w'') = true) /\
  (exists w',
     BasePort.receive false [] Examples.shared_a =
       (Some (Raise (TypeError
          "DummyLock.release() takes 1 positional argument but 4 were given")), w') /\
     _messages (self w') = [] /\
     closed (self w') = false /\
     heap w' = heap Examples.shared_a /\
     trace (self w') = trace (self Examples.shared_a) ++ [EvAcquire; EvRelease]).
Proof.
  split.
  - exact (proj2 (proj1 (C3_receive_pops_oldest_first Examples.echo_ab_closed true []
                           2%nat [3%nat] eq_refl eq_refl) eq_refl)).
  - exact (proj1 (proj2 (C3_receive_pops_oldest_first Examples.shared_a false []
                           2%nat [] eq_refl eq_refl) eq_refl)).
Defined.

(** [class Shared(EchoPort): _locking = False]; [s = Shared()];
    [s.send(note_a)] raises [TypeError] after the copy has been queued, and
    the [s.receive(block=False)] that follows pops the copy and raises
    [TypeError] too: the message is never delivered. *)
Example unlocked_port_loses_the_message :
  let '(r1, w1) := BasePort.send 0%nat Examples.shared in
  let '(r2, w2) := BasePort.receive false [] w1 in
  let '(r3, w3) := BasePort.receive false [] w2 in
  r1 = Raise (TypeError "DummyLock.release() takes 1 positional argument but 4 were given") /\
  _messages (self w1) = [2%nat] /\
  r2 = Some (Raise (TypeError
         "DummyLock.release() takes 1 positional argument but 4 were given")) /\
  _messages (self w2) = [] /\
  r3 = Some (Raise (TypeError
         "DummyLock.release() takes 1 positional argument but 4 were given")).
Proof. vm_compute. repeat split. Qed.

Lemma C2_receive_witness :
  fst (BasePort.receive true [] Examples.echo_closed) =
    Some (Raise (ValueError "receive() called on closed port")).
Proof.
  exact (proj1 (proj2 (C2_receive_on_closed_empty_port Examples.echo_closed []
                         eq_refl eq_refl eq_refl eq_refl))).
Defined.

Lemma C5_receive_witness :
  fst (BasePort.receive_loop true [] Examples.echo_closed) =
    Some (Raise (IOError "port closed during receive()")).
Proof.
  exact (proj1 (proj2 (C5_closed_port_ends_blocking_receive Examples.echo_closed []
                         eq_refl))
               eq_refl VNone _ eq_refl eq_refl eq_refl).
Defined.

(** A blocking [receive] on an open EchoPort that another thread closes
    during the second sleep: two sleeps, then the closed-port error. *)
Example blocking_receive_closed_by_other_thread :
  let '(r, w) := BasePort.receive true [id; other_thread_closes; id] Examples.echo in
  r = Some (Raise (IOError "port closed during receive()")) /\
  count_events is_EvSleep (trace (self w)) = 2%nat /\
  closed (self w) = true.
Proof. vm_compute. auto. Qed.


(** ** send *)

Lemma copy_fresh (r : nat) (m : Message) (h : list Message) :
  h !! r = Some m ->
  copy r h = (Ok (length h), h ++ [m]) /\
  length h <> r /\
  h !! length h = None /\
  (h ++ [m]) !! length h = Some m /\
  (h ++ [m]) !! r = Some m.
Proof.
  intros Hr. unfold copy, alloc. rewrite Hr.
  pose proof (lookup_lt_Some _ _ _ Hr) as Hlt.
  repeat split.
  - lia.
  - apply lookup_ge_None. lia.
  - rewrite lookup_app_r by lia. rewrite Nat.sub_diag. reflexivity.
  - rewrite lookup_app_l by assumption. assumption.
Qed.

Lemma mutate_other (r r' : nat) (m : Message) (h : list Message) :
  r' <> r -> mutate r m h !! r' = h !! r'.
Proof.
  intros Hne. unfold mutate. apply list_lookup_insert_ne. congruence.
Qed.

Section SendSpec.
Context {D : Type} `{PortClass D}.

(** C4: [send(m)] raises [ValueError] (the invalid-operation error), without
    touching the port or the transport, when [is_output()] is false or the
    port is closed; otherwise it makes a copy [m'] of the message, a new
    object different from [m] with the same contents, and calls the
    transport's [_send] on [m'] under the lock, so a later mutation of [m]
    leaves the object the transport was given unchanged. *)
Theorem C4_send_forwards_a_copy (w : World D) (msg : nat) :
  (forall b, is_output (drv (self w)) = Ok b ->
     b = false \/ closed (self w) = true ->
     BasePort.send msg w =
       (Raise (ValueError (if b then "send() called on closed port"
                           else "Not an output port")), w)) /\
  (forall m, is_output (drv (self w)) = Ok true ->
     closed (self w) = false ->
     heap w !! msg = Some m ->
     exists msg',
       msg' <> msg /\
       heap w !! msg' = None /\
       (heap w ++ [m]) !! msg' = Some m /\
       BasePort.send msg w =
         with_lock (fun w1 => call_hook (EvSend msg') (_send msg')
                                        (set_heap (heap w1 ++ [m]) w1)) w /\
       trace (self (snd (BasePort.send msg w))) =
         trace (self w) ++ [EvAcquire; EvSend msg'; EvRelease] /\
       (forall h m', mutate msg m' h !! msg' = h !! msg')).
Proof.
  split.
  - intros b Hout Hb. unfold BasePort.send. rewrite Hout.
    destruct b.
    + destruct Hb as [Hb|Hb]; [discriminate|]. rewrite Hb. reflexivity.
    + reflexivity.
  - intros m Hout Hopen Hm.
    destruct (copy_fresh msg m (heap w) Hm) as (Hcopy & Hne & Hfresh & Hnew & _).
    exists (length (heap w)). repeat split; try assumption.
    + unfold BasePort.send. rewrite Hout, Hopen.
      apply with_lock_ext. simpl. rewrite Hcopy. reflexivity.
    + unfold BasePort.send. rewrite Hout, Hopen, with_lock_state. simpl.
      rewrite Hcopy. unfold call_hook. simpl.
      destruct (_send _ _) as [r hs]. simpl.
      rewrite <- !app_assoc. reflexivity.
    + intros h m'. apply mutate_other. assumption.
Qed.

End SendSpec.

Lemma C4_send_witness :
  exists msg',
    msg' <> 0%nat /\
    heap Examples.echo !! msg' = None /\
    (heap Examples.echo ++ [Examples.note_a]) !! msg' = Some Examples.note_a /\
    BasePort.send 0%nat Examples.echo =
      with_lock (fun w1 => call_hook (EvSend msg') (_send msg')
                                     (set_heap (heap w1 ++ [Examples.note_a]) w1))
                Examples.echo /\
    trace (self (snd (BasePort.send 0%nat Examples.echo))) =
      trace (self Examples.echo) ++ [EvAcquire; EvSend msg'; EvRelease] /\
    (forall h m', mutate 0%nat m' h !! msg' = h !! msg').
Proof.
  exact (proj2 (C4_send_forwards_a_copy Examples.echo 0%nat)
               Examples.note_a eq_refl eq_refl eq_refl).
Defined.

(** Loopback through an EchoPort: the caller sends [note_a], overwrites its
    own message object, and then receives a message that still has the
    contents sent. *)
Example echo_loopback_after_mutation :
  let w1 := snd (BasePort.send 0%nat Examples.echo) in
  let w2 := set_heap (mutate 0%nat Examples.note_b (heap w1)) w1 in
  let '(r, w3) := BasePort.receive false [] w2 in
  exists msg', r = Some (Ok (VMsg msg')) /\
               heap w3 !! msg' = Some Examples.note_a /\
               heap w3 !! 0%nat = Some Examples.note_b.
Proof. vm_compute. eexists. repeat split. Qed.

(** ** close *)

Section CloseFacts.
Context {D : Type} `{PortClass D}.

Lemma close_block_closed (w : World D) :
  closed (self w) = true -> BasePort.close_block w = (Ok tt, w).
Proof.
  intros Hc. unfold BasePort.close_block. rewrite Hc. reflexivity.
Qed.

(** The body of [close()] on an open port, step by step: the reset step,
    then the transport close, then the flag. *)
Lemma close_block_open (w : World D) :
  closed (self w) = false ->
  BasePort.close_block w =
  match (if truthy (autoreset (self w))
         then try_except_IOError BasePort.reset w
         else (Ok tt, w)) with
  | (Raise e, w1) => (Raise e, w1)
  | (Ok _, w1) =>
      match call_hook EvClose _close w1 with
      | (Raise e, w2) => (Raise e, w2)
      | (Ok _, w2) => (Ok tt, set_closed true w2)
      end
  end.
Proof.
  intros Hc. unfold BasePort.close_block, bind. rewrite Hc. simpl.
  destruct (truthy (autoreset (self w))).
  - destruct (try_except_IOError BasePort.reset w) as [[[]|e] w1];
      [|reflexivity].
    destruct (call_hook EvClose _close w1) as [[[]|e] w2]; reflexivity.
  - unfold ret.
    destruct (call_hook EvClose _close w) as [[[]|e] w2]; reflexivity.
Qed.

(** The state [close()] leaves on a closed port, with either lock. *)
Lemma close_closed_state (w : World D) :
  closed (self w) = true ->
  snd (BasePort.close w) = log EvRelease (log EvAcquire w).
Proof.
  intros Hc. unfold BasePort.close.
  rewrite with_lock_state, close_block_closed by exact Hc. reflexivity.
Qed.

Lemma close_closed (w : World D) :
  _locking D = true ->
  closed (self w) = true ->
  BasePort.close w = (Ok tt, log EvRelease (log EvAcquire w)).
Proof.
  intros Hlk Hc. unfold BasePort.close.
  rewrite (with_lock_locking _ w Hlk), close_block_closed by exact Hc. reflexivity.
Qed.


(** [close()] on an open port with the re-entrant lock. *)
Lemma close_open (w : World D) :
  _locking D = true ->
  closed (self w) = false ->
  BasePort.close w =
  match (if truthy (autoreset (self w))
         then try_except_IOError BasePort.reset (log EvAcquire w)
         else (Ok tt, log EvAcquire w)) with
  | (Raise e, w1) => (Raise e, log EvRelease w1)
  | (Ok _, w1) =>
      match call_hook EvClose _close w1 with
      | (Raise e, w2) => (Raise e, log EvRelease w2)
      | (Ok _, w2) => (Ok tt, log EvRelease (set_closed true w2))
      end
  end.
Proof.
  intros Hlk Hc. unfold BasePort.close.
  rewrite (with_lock_locking _ w Hlk), (close_block_open (log EvAcquire w) Hc).
  cbn [autoreset self log].
  destruct (if truthy (autoreset (self w)) then _ else _) as [[[]|e] w1];
    [|reflexivity].
  destruct (call_hook EvClose _close w1) as [[[]|e] w2]; reflexivity.
Qed.

(** [close()] on a port with a [DummyLock] raises in every state. *)
Lemma close_unlocked (w : World D) :
  _locking D = false ->
  fst (BasePort.close w) =
  Raise (TypeError "DummyLock.release() takes 1 positional argument but 4 were given").
Proof.
  intros Hlk. unfold BasePort.close. rewrite (with_lock_unlocked _ w Hlk). reflexivity.
Qed.

Lemma try_reset_same_lifecycle (w : World D) :
  same_lifecycle w (snd (try_except_IOError BasePort.reset w)).
Proof.
  unfold try_except_IOError.
  pose proof (reset_same_lifecycle w) as Hr.
  destruct (BasePort.reset w) as [[[]|e] w1]; simpl in *; [assumption|].
  destruct (is_IOError e); assumption.
Qed.

Lemma call_hook_close_effect (w : World D) :
  closed (self (snd (call_hook EvClose _close w))) = closed (self w) /\
  trace (self (snd (call_hook EvClose _close w))) = trace (self w) ++ [EvClose].
Proof.
  unfold call_hook. destruct (_close _) as [r hs]. simpl. auto.
Qed.

(** The state in which the transport close runs: after the reset step. *)
Lemma close_reset_step_same_lifecycle (w : World D) :
  same_lifecycle w
    (snd (if truthy (autoreset (self w))
          then try_except_IOError BasePort.reset (log EvAcquire w)
          else (Ok tt, log EvAcquire w))).
Proof.
  destruct (truthy (autoreset (self w))).
  - chain (log EvAcquire w); auto with lifecycle. apply try_reset_same_lifecycle.
  - simpl. auto with lifecycle.
Qed.

(** A [close()] of an open port that returns normally has closed it and has
    called the transport close once. *)
Lemma close_returns (w w' : World D) :
  closed (self w) = false ->
  BasePort.close w = (Ok tt, w') ->
  closed (self w') = true /\
  count_events is_EvClose (trace (self w')) =
  S (count_events is_EvClose (trace (self w))).
Proof.
  intros Hc Hcl.
  assert (Hlk : _locking D = true).
  { unfold BasePort.close in Hcl. apply with_lock_returns in Hcl. tauto. }
  revert Hcl. rewrite (close_open w Hlk Hc).
  pose proof (close_reset_step_same_lifecycle w) as Hs.
  destruct (if truthy (autoreset (self w)) then _ else _) as [[[]|e] w1];
    [|discriminate].
  simpl in Hs. destruct Hs as (_ & _ & _ & Hcount).
  pose proof (call_hook_close_effect w1) as [_ Htr].
  destruct (call_hook EvClose _close w1) as [[[]|e] w2]; [|discriminate].
  simpl in Htr. intros [= <-]. simpl. split; [reflexivity|].
  rewrite Htr, !count_events_app, Hcount. simpl. lia.
Qed.







Lemma reset_step_same_lifecycle (w w1 : World D) (r1 : Res unit) :
  BasePort.reset (log EvAcquire w) = (r1, w1) -> same_lifecycle w w1.
Proof.
  intros Hr. chain (log EvAcquire w); auto with lifecycle.
  pose proof (reset_same_lifecycle (log EvAcquire w)) as Hs.
  rewrite Hr in Hs. exact Hs.
Qed.

Lemma close_reset_failure_propagates (w w1 : World D) (e : PyExc) :
  _locking D = true ->
  closed (self w) = false ->
  truthy (autoreset (self w)) = true ->
  BasePort.reset (log EvAcquire w) = (Raise e, w1) ->
  is_IOError e = false ->
  BasePort.close w = (Raise e, log EvRelease w1) /\
  closed (self (snd (BasePort.close w))) = false /\
  count_events is_EvClose (trace (self (snd (BasePort.close w)))) =
  count_events is_EvClose (trace (self w)).
Proof.
  intros Hlk Hc Har Hr He.
  destruct (reset_step_same_lifecycle w _ _ Hr) as (Hcl & _ & _ & Hcount).
  assert (Hclose : BasePort.close w = (Raise e, log EvRelease w1)).
  { rewrite (close_open w Hlk Hc), Har. unfold try_except_IOError.
    rewrite Hr, He. reflexivity. }
  rewrite Hclose. simpl. repeat split.
  - rewrite Hcl. assumption.
  - rewrite count_events_app, Hcount. simpl. lia.
Qed.



End CloseFacts.


(** A subclass that does not override [_open] (as the ALSA, RtMidi,
    FluidSynth and KDMAPI ports do not) fails to construct, and the object
    left behind is closed. *)
Example construction_failure_stays_closed :
  let '(r, w) := BasePort.__init__ (H:=AbstractPort) VNone (VBool false) tt [] in
  r = Raise NotImplementedError /\ closed (self w) = true /\
  fst (BasePort.close (H:=AbstractPort) w) = Ok tt.
Proof. vm_compute. repeat split. Qed.


(** [MultiPort([])] is constructed open; its [close()] raises from the
    reset step, calls no transport close and leaves the port open. *)
Example close_empty_multiport_leaves_it_open :
  fst (MultiPort.__init__ (C:=EchoPort.Attrs) [] false []) = Ok tt /\
  closed (self Examples.multi_empty) = false /\
  fst (BasePort.close Examples.multi_empty) = Raise (ValueError "Not an output port") /\
  closed (self (snd (BasePort.close Examples.multi_empty))) = false /\
  count_events is_EvClose (trace (self (snd (BasePort.close Examples.multi_empty)))) = 0%nat.
Proof. vm_compute. repeat split. Qed.

(** On a port that opts out of locking, [close()] does its work and then
    raises; closing it again raises again. *)
Example close_unlocked_port :
  let '(r1, w1) := BasePort.close Examples.shared in
  let '(r2, w2) := BasePort.close w1 in
  r1 = Raise (TypeError "DummyLock.release() takes 1 positional argument but 4 were given") /\
  closed (self w1) = true /\
  count_events is_EvClose (trace (self w1)) = 1%nat /\
  r2 = Raise (TypeError "DummyLock.release() takes 1 positional argument but 4 were given") /\
  closed (self w2) = true /\
  count_events is_EvClose (trace (self w2)) = 1%nat.
Proof. vm_compute. repeat split. Qed.

(** With autoreset set, the reset step of such a port fails with the
    [TypeError] of its first [send], after that [send] has echoed the
    message: [close()] raises, the transport close is not called and the
    port stays open. *)
Example close_unlocked_port_with_autoreset :
  let '(r, w) :=
    BasePort.close (snd (BasePort.__init__ VNone (VBool true) Examples.SharedAttrs [])) in
  r = Raise (TypeError "DummyLock.release() takes 1 positional argument but 4 were given") /\
  closed (self w) = false /\
  length (_messages (self w)) = 1%nat /\
  count_events is_EvClose (trace (self w)) = 0%nat.
Proof. vm_compute. repeat split. Qed.


(** An I/O failure of the reset step does not keep the port open. *)
Example close_unplugged_port :
  fst (BasePort.reset (log EvAcquire Examples.unplugged)) = Raise (IOError "device unplugged") /\
  fst (BasePort.close Examples.unplugged) = Ok tt /\
  closed (self (snd (BasePort.close Examples.unplugged))) = true.
Proof. vm_compute. repeat split. Qed.


(** The same happens on an input-only port opened with [autoreset=True]:
    the reset step fails with the [ValueError] of [send], and the port
    cannot be closed. *)
Example close_input_port_with_autoreset :
  fst (BasePort.close MoreExamples.listener_autoreset) =
    Raise (ValueError "Not an output port") /\
  closed (self (snd (BasePort.close MoreExamples.listener_autoreset))) = false /\
  count_events is_EvClose
    (trace (self (snd (BasePort.close MoreExamples.listener_autoreset)))) = 0%nat.
Proof. vm_compute. repeat split. Qed.


(** ** MultiPort *)

Section MultiPortSpec.
Context {C : Type} `{PortClass C}.

Lemma multiport_init (ports_arg : list (Port C)) (yield_ports_arg : bool) (h : list Message) :
  MultiPort.__init__ ports_arg yield_ports_arg h =
  (Ok tt,
   mkWorld h (mkPort VSelf (VStr "multi") [] false
                     (MultiPort.mkAttrs ports_arg yield_ports_arg) [EvOpen])).
Proof. reflexivity. Qed.

Lemma multiport_locking : _locking (MultiPort.Attrs C) = true.
Proof. reflexivity. Qed.

Lemma reset_messages_first :
  reset_messages DEFAULT_NUM_CHANNELS =
  MessageControlChange 0 123 0 :: tl (reset_messages DEFAULT_NUM_CHANNELS).
Proof. reflexivity. Qed.

(** C10: [MultiPort(ports)] always constructs successfully, with [name]
    bound to the port object itself and [autoreset] to the true string
    ["multi"]; so [close()] on the new port, and on any later state of it
    that is still open, runs the reset step before the transport close:
    [reset()] builds the first reset message and calls [send] on it.  When
    no child is output-capable that [send] raises [ValueError], which
    [close()] propagates, leaving the port open. *)
Theorem C10_multiport_constructor_sets_autoreset
        (ports_arg : list (Port C)) (yield_ports_arg : bool) (h : list Message) :
  let '(r, w) := MultiPort.__init__ ports_arg yield_ports_arg h in
  r = Ok tt /\
  name (self w) = VSelf /\
  autoreset (self w) = VStr "multi" /\
  truthy (autoreset (self w)) = true /\
  closed (self w) = false /\
  MultiPort.ports (drv (self w)) = ports_arg /\
  (forall w' : World (MultiPort.Attrs C),
      autoreset (self w') = autoreset (self w) ->
      closed (self w') = false ->
      BasePort.close w' =
        with_lock (fun w0 =>
                     (try_except_IOError BasePort.reset ;;
                      call_hook EvClose _close ;;
                      fun w1 => (Ok tt, set_closed true w1))%py w0) w' /\
      BasePort.reset (log EvAcquire w') =
        (BasePort.send (length (heap w')) ;;
         BasePort.send_each (tl (reset_messages DEFAULT_NUM_CHANNELS)))%py
          (set_heap (heap w' ++ [MessageControlChange 0 123 0]) (log EvAcquire w')) /\
      (is_output (drv (self w')) = Ok false ->
       fst (BasePort.close w') = Raise (ValueError "Not an output port") /\
       closed (self (snd (BasePort.close w'))) = false)).
Proof.
  rewrite multiport_init.
  do 6 (split; [reflexivity|]).
  intros w' Har Hc. cbn [autoreset self] in Har.
  assert (Hreset : BasePort.reset (log EvAcquire w') =
                   (BasePort.send (length (heap w')) ;;
                    BasePort.send_each (tl (reset_messages DEFAULT_NUM_CHANNELS)))%py
                     (set_heap (heap w' ++ [MessageControlChange 0 123 0])
                               (log EvAcquire w'))).
  { unfold BasePort.reset. cbn [closed self log]. rewrite Hc.
    rewrite reset_messages_first at 1. reflexivity. }
  split; [|split].
  - unfold BasePort.close. apply with_lock_ext.
    unfold BasePort.close_block. cbn [closed autoreset self log].
    rewrite Hc, Har. reflexivity.
  - exact Hreset.
  - intros Hout.
    assert (Hr : BasePort.reset (log EvAcquire w') =
                 (Raise (ValueError "Not an output port"),
                  set_heap (heap w' ++ [MessageControlChange 0 123 0])
                           (log EvAcquire w'))).
    { rewrite Hreset. unfold bind, BasePort.send.
      cbn [drv self set_heap log]. rewrite Hout. reflexivity. }
    destruct (close_reset_failure_propagates w' _ _ multiport_locking Hc
                ltac:(rewrite Har; reflexivity) Hr eq_refl) as (Hcl & Hflag & _).
    rewrite Hcl. split; [reflexivity|]. rewrite Hcl in Hflag. exact Hflag.
Qed.

Lemma multiport_receive_generator
      (w : World (MultiPort.Attrs C)) (block : bool)
      (sched : list (World (MultiPort.Attrs C) -> World (MultiPort.Attrs C))) :
  is_input (drv (self w)) = Ok true ->
  _messages (self w) = [] ->
  closed (self w) = false ->
  exists w',
    BasePort.receive block sched w = (Some (Ok (VGenerator block)), w') /\
    drv (self w') = drv (self w) /\
    heap w' = heap w /\
    _messages (self w') = [] /\
    closed (self w') = false /\
    trace (self w') =
      trace (self w) ++ [EvAcquire; EvRelease; EvAcquire; EvReceive block; EvRelease].
Proof.
  intros Hin Hq Hc.
  unfold BasePort.receive.
  rewrite (receive_prologue_falls_through block w multiport_locking Hin Hq Hc).
  eexists. split.
  - apply receive_loop_returns.
    unfold BasePort.receive_iter. rewrite (with_lock_locking _ _ multiport_locking).
    unfold BasePort.receive_poll_block, call_hook. simpl. reflexivity.
  - simpl. repeat split; try assumption.
    rewrite <- !app_assoc. reflexivity.
Qed.

(** C1, what the code does: on an open MultiPort with an input-capable
    child, [receive(block)] returns a generator object, for either value of
    [block]: [BasePort.receive] takes the (true) object that the generator
    function [MultiPort._receive] returns for a message.  The call runs none
    of the sweep: no child is read and the children keep their buffered
    messages; and however often [receive(block=False)] is repeated, every
    call returns a generator object, never a message and never [None]. *)
Theorem C1_multiport_receive_returns_generator
        (w : World (MultiPort.Attrs C)) (block : bool)
        (sched : list (World (MultiPort.Attrs C) -> World (MultiPort.Attrs C))) :
  is_input (drv (self w)) = Ok true ->
  _messages (self w) = [] ->
  closed (self w) = false ->
  (exists w',
      BasePort.receive block sched w = (Some (Ok (VGenerator block)), w') /\
      drv (self w') = drv (self w) /\
      heap w' = heap w) /\
  (forall n,
      fst (receive_n n false sched w) = repeat (Some (Ok (VGenerator false))) n /\
      drv (self (snd (receive_n n false sched w))) = drv (self w)).
Proof.
  intros Hin Hq Hc. split.
  - destruct (multiport_receive_generator w block sched Hin Hq Hc)
      as (w' & Hr & Hd & Hh & _).
    exists w'. auto.
  - intros n. revert w Hin Hq Hc. induction n as [|n IH]; intros w Hin Hq Hc.
    + split; reflexivity.
    + destruct (multiport_receive_generator w false sched Hin Hq Hc)
        as (w' & Hr & Hd & _ & Hq' & Hc' & _).
      simpl. rewrite Hr.
      assert (Hin' : is_input (drv (self w')) = Ok true) by (rewrite Hd; exact Hin).
      specialize (IH w' Hin' Hq' Hc').
      destruct (receive_n n false sched w') as [rs w'']. simpl in *.
      destruct IH as [-> ->]. split; [reflexivity | exact Hd].
Qed.

End MultiPortSpec.

Lemma C10_multiport_witness :
  fst (BasePort.close Examples.multi_empty) = Raise (ValueError "Not an output port") /\
  closed (self (snd (BasePort.close Examples.multi_empty))) = false.
Proof.
  pose proof (C10_multiport_constructor_sets_autoreset
                (C:=EchoPort.Attrs) [] false []) as Hw.
  rewrite multiport_init in Hw.
  destruct Hw as (_ & _ & _ & _ & _ & _ & Hclose).
  destruct (Hclose Examples.multi_empty eq_refl eq_refl) as (_ & _ & Hraise).
  exact (Hraise eq_refl).
Defined.

Lemma C1_multiport_witness :
  fst (receive_n 3 false [] Examples.multi) = repeat (Some (Ok (VGenerator false))) 3 /\
  map _messages (MultiPort.ports (drv (self (snd (receive_n 3 false [] Examples.multi)))))
  = [[2%nat]; [3%nat]].
Proof.
  assert (Hin : is_input (drv (self Examples.multi)) = Ok true) by reflexivity.
  destruct (proj2 (C1_multiport_receive_returns_generator Examples.multi false []
                     Hin eq_refl eq_refl) 3%nat) as [Hr Hd].
  split; [exact Hr|]. rewrite Hd. reflexivity.
Defined.

(** Closing a MultiPort with output children sends them the 32 reset
    messages. *)
Example close_multiport_resets_children :
  let '(r, w) := BasePort.close Examples.multi in
  r = Ok tt /\
  closed (self w) = true /\
  map (fun p => length (_messages p)) (MultiPort.ports (drv (self w))) = [33%nat; 33%nat] /\
  map closed (MultiPort.ports (drv (self w))) = [false; false].
Proof. vm_compute. repeat split. Qed.

(** The body of the generator, once a consumer runs it, does sweep the
    children: whatever order the shuffle picks, it yields each buffered
    message once and a second run yields nothing. *)
Example multiport_generator_body_sweeps :
  let hs := mkHookSt (heap Examples.multi) [] (drv (self Examples.multi)) in
  let '(ys1, e1, hs1) := MultiPort._receive_body false 8 [id] hs in
  let '(ys2, e2, hs2) := MultiPort._receive_body false 8 [@rev _] hs in
  let '(ys3, e3, _) := MultiPort._receive_body false 8 [id] hs1 in
  ys1 = [YMessage (VMsg 2%nat); YMessage (VMsg 3%nat)] /\ e1 = Finished /\
  ys2 = [YMessage (VMsg 3%nat); YMessage (VMsg 2%nat)] /\ e2 = Finished /\
  ys3 = [] /\ e3 = Finished.
Proof. vm_compute. repeat split. Qed.

(** ** Backend registry *)

Section RegistrySpec.
Variable py_repr : string -> string.

(** C9: when discovery produces a mapping and [name] is not one of its keys,
    [get_backend(name)] raises [ValueError] (the not-found error) whose
    message is ["Unknown backend "] followed by [repr(name)], so (as [repr]
    is injective) the error determines the requested name; when [name] is a
    key, [get_backend(name)] returns the module discovered under it. *)
Theorem C9_get_backend_by_name (found : list (string * Backends.Import))
        (name : string) (backends : gmap string Backends.PyModule) :
  Backends.get_available_backends found = Ok backends ->
  (backends !! name = None ->
   Backends.get_backend py_repr found name =
     Raise (ValueError ("Unknown backend " +:+ py_repr name))) /\
  (forall module,
      backends !! name = Some module ->
      Backends.get_backend py_repr found name = Ok module) /\
  (forall name' e,
      (forall a b, py_repr a = py_repr b -> a = b) ->
      Backends.get_backend py_repr found name = Raise e ->
      Backends.get_backend py_repr found name' = Raise e ->
      name = name').
Proof.
  intros Hfound. unfold Backends.get_backend. rewrite Hfound. split; [|split].
  - intros ->. reflexivity.
  - intros module ->. reflexivity.
  - intros name' e Hinj.
    destruct (backends !! name); [discriminate|].
    destruct (backends !! name'); [discriminate|].
    intros [= <-] [= E]. simpl in E. symmetry. apply Hinj. exact E.
Qed.

End RegistrySpec.

(** Discovery keeps a candidate only if its import succeeds and it has both
    attributes. *)
Lemma discover_keeps_valid_modules (backends backends' : gmap string Backends.PyModule)
      (name key : string) (imported : Backends.Import) (module : Backends.PyModule) :
  Backends.discover backends (name, imported) = Ok backends' ->
  backends' !! key = Some module ->
  backends !! key = Some module \/
  (key = name /\ imported = Backends.Imported module /\
   Backends.hasattr_get_devices module = true /\ Backends.hasattr_Port module = true).
Proof.
  unfold Backends.discover.
  destruct imported as [m|e].
  - destruct (Backends.hasattr_get_devices m) eqn:Hg,
             (Backends.hasattr_Port m) eqn:Hp; simpl; intros [= <-]; auto.
    destruct (decide (name = key)) as [->|Hne].
    + rewrite lookup_insert_eq. intros [= ->]. right. auto.
    + rewrite lookup_insert_ne by assumption. auto.
  - destruct (is_Exception e); [|discriminate]. intros [= <-]. auto.
Qed.

Lemma C9_get_backend_witness :
  Backends.get_backend Examples.plain_repr Examples.found "rtmidi" =
    Raise (ValueError "Unknown backend 'rtmidi'") /\
  Backends.get_backend Examples.plain_repr Examples.found "alsamidi" =
    Raise (ValueError "Unknown backend 'alsamidi'") /\
  Backends.get_backend Examples.plain_repr Examples.found "fluidsynth" =
    Ok (Backends.mkPyModule "fluidsynth/__init__.py" (Some "get_devices") (Some "Port")).
Proof.
  assert (Hfound :
    Backends.get_available_backends Examples.found =
    Ok (<["fluidsynth" :=
            Backends.mkPyModule "fluidsynth/__init__.py" (Some "get_devices") (Some "Port")]>
          ∅)) by reflexivity.
  split; [|split].
  - apply (proj1 (C9_get_backend_by_name Examples.plain_repr Examples.found "rtmidi"
                    _ Hfound)).
    vm_compute. reflexivity.
  - apply (proj1 (C9_get_backend_by_name Examples.plain_repr Examples.found "alsamidi"
                    _ Hfound)).
    vm_compute. reflexivity.
  - apply (proj1 (proj2 (C9_get_backend_by_name Examples.plain_repr Examples.found
                           "fluidsynth" _ Hfound))).
    vm_compute. reflexivity.
Defined.

(** A candidate that exits the interpreter when imported ends discovery:
    [get_available_backends()] and every [get_backend(name)] raise
    [SystemExit], also for a backend that was found before it. *)
Example discovery_aborted_by_exiting_candidate :
  Backends.get_available_backends Examples.found_exiting = Raise SystemExit /\
  Backends.get_backend Examples.plain_repr Examples.found_exiting "fluidsynth" =
    Raise SystemExit.
Proof. split; reflexivity. Qed.


(** * Further properties of the code *)

(** ** utils/messages.py: panic_messages and empty ranges *)

Lemma py_range_length_max (n : Z) : Z.of_nat (length (py_range n)) = Z.max 0 n.
Proof. unfold py_range. rewrite length_map, length_seq. lia. Qed.

Lemma panic_messages_map (n : Z) :
  panic_messages n = map (fun c => MessageControlChange c 120 0) (py_range n).
Proof. reflexivity. Qed.

(** [panic_messages(n)] yields one message per channel, [max(0, n)] in all:
    the message at position [c] is the control change of channel [c] with
    controller 120 and value 0; [reset_messages(n)] yields [2 * max(0, n)];
    for [n <= 0] both yield nothing. *)
Theorem panic_messages_one_per_channel (n : Z) :
  Z.of_nat (length (panic_messages n)) = Z.max 0 n /\
  Z.of_nat (length (reset_messages n)) = 2 * Z.max 0 n /\
  (forall c : Z, 0 <= c < n ->
     panic_messages n !! Z.to_nat c = Some (MessageControlChange c 120 0)) /\
  (n <= 0 -> panic_messages n = [] /\ reset_messages n = []).
Proof.
  pose proof (py_range_length_max n) as Hlen.
  rewrite panic_messages_map, reset_messages_pairs.
  split; [|split; [|split]].
  - rewrite length_map. exact Hlen.
  - rewrite flat_map_pair_length. lia.
  - intros c Hc. rewrite list_lookup_fmap, (py_range_lookup n c Hc). reflexivity.
  - intros Hn. unfold py_range. replace (Z.to_nat n) with O by lia. split; reflexivity.
Qed.

Lemma panic_messages_one_per_channel_witness :
  panic_messages 16 !! 15%nat = Some (MessageControlChange 15 120 0) /\
  panic_messages (-3) = [] /\ reset_messages (-3) = [].
Proof.
  destruct (panic_messages_one_per_channel 16) as (_ & _ & Hc & _).
  destruct (panic_messages_one_per_channel (-3)) as (_ & _ & _ & Hneg).
  split; [apply (Hc 15); lia | apply Hneg; lia].
Defined.

(** ** receive(block=False) *)

Section NonBlocking.
Context {D : Type} `{PortClass D}.

Lemma receive_prologue_no_sleep (block : bool) (w : World D) :
  count_events is_EvSleep (trace (self (snd (BasePort.receive_prologue block w)))) =
  count_events is_EvSleep (trace (self w)).
Proof.
  unfold BasePort.receive_prologue.
  destruct (is_input _) as [[|]|e]; simpl; try reflexivity.
  pose proof (with_lock_state BasePort.receive_pending_block w) as Hst.
  assert (Htr : trace (self (snd (BasePort.receive_pending_block (log EvAcquire w)))) =
                trace (self w) ++ [EvAcquire]).
  { unfold BasePort.receive_pending_block. simpl.
    destruct (_messages (self w)); reflexivity. }
  assert (Hn : count_events is_EvSleep (trace (self (snd
                 (with_lock BasePort.receive_pending_block w)))) =
               count_events is_EvSleep (trace (self w))).
  { rewrite Hst. simpl. rewrite Htr, !count_events_app. simpl. lia. }
  destruct (with_lock _ w) as [[[msg|]|e] w1]; simpl in Hn |- *; try exact Hn.
  destruct (closed (self w1)); [destruct block|]; exact Hn.
Qed.

(** A non-blocking [receive] returns in every state of every port class,
    with the same result whatever the other threads are scheduled to do, and
    never sleeps. *)
Theorem receive_nonblocking_never_sleeps
        (w : World D) (sched : list (World D -> World D)) :
  exists r w',
    BasePort.receive false sched w = (Some r, w') /\
    BasePort.receive false [] w = (Some r, w') /\
    count_events is_EvSleep (trace (self w')) = count_events is_EvSleep (trace (self w)).
Proof.
  unfold BasePort.receive.
  pose proof (receive_prologue_no_sleep false w) as Hp.
  destruct (BasePort.receive_prologue false w) as [[r|] w1]; simpl in Hp.
  - exists r, w1. auto.
  - destruct (receive_iter_nonblocking_returns w1) as [r Hr].
    destruct (BasePort.receive_iter false w1) as [[r'|] w'] eqn:Hi; simpl in Hr;
      [|discriminate].
    exists r', w'.
    rewrite !(receive_loop_returns false _ _ _ _ Hi).
    repeat split.
    rewrite (receive_iter_return_no_sleep false _ _ _ Hi). exact Hp.
Qed.

End NonBlocking.

(** ** Lock discipline *)

Lemma lock_walk_app (held : nat) (t1 t2 : list Event) :
  lock_walk held (t1 ++ t2) =
  match lock_walk held t1 with
  | Some held' => lock_walk held' t2
  | None => None
  end.
Proof.
  revert held. induction t1 as [|e t1 IH]; intros held; [reflexivity|].
  destruct e, held; simpl; auto.
Qed.

Lemma lock_disciplined_same_trace {D} (held : nat) (w w' : World D) :
  trace (self w') = trace (self w) -> lock_disciplined held w w'.
Proof.
  intros Ht. exists []. rewrite app_nil_r. auto.
Qed.

Lemma lock_disciplined_trans {D} (held : nat) (w1 w2 w3 : World D) :
  lock_disciplined held w1 w2 -> lock_disciplined held w2 w3 ->
  lock_disciplined held w1 w3.
Proof.
  intros (d1 & H1 & L1) (d2 & H2 & L2). exists (d1 ++ d2). split.
  - rewrite H2, H1, app_assoc. reflexivity.
  - rewrite lock_walk_app, L1. exact L2.
Qed.

Lemma lock_disciplined_bracket {D} (held : nat) (w w1 : World D) :
  lock_disciplined (S held) (log EvAcquire w) w1 ->
  lock_disciplined held w (log EvRelease w1).
Proof.
  intros (d & Hd & Ld). exists (EvAcquire :: d ++ [EvRelease]). split.
  - simpl in *. rewrite Hd, <- !app_assoc. reflexivity.
  - simpl. rewrite lock_walk_app, Ld. reflexivity.
Qed.

Lemma lock_disciplined_hook {D A} (held : nat) (ev : Event)
      (f : Py (HookSt D) A) (w : World D) :
  lock_walk (S held) [ev] = Some (S held) ->
  lock_disciplined (S held) w (snd (call_hook ev f w)).
Proof.
  intros Hev. exists [ev]. split; [|exact Hev].
  unfold call_hook. destruct (f _) as [r hs]. reflexivity.
Qed.

Lemma lock_disciplined_sleep {D} (w : World D) :
  lock_disciplined 0 w (log EvSleep w).
Proof. exists [EvSleep]. split; reflexivity. Qed.

Ltac step_lock w := apply (lock_disciplined_trans _ _ w).

Section LockDiscipline.
Context {D : Type} `{PortClass D}.

Lemma with_lock_disciplined {A} (held : nat) (body : Py (World D) A) (w : World D) :
  lock_disciplined (S held) (log EvAcquire w) (snd (body (log EvAcquire w))) ->
  lock_disciplined held w (snd (with_lock body w)).
Proof.
  intros Hb. rewrite with_lock_state. apply lock_disciplined_bracket. exact Hb.
Qed.

Lemma send_lock_disciplined (held : nat) (msg : nat) (w : World D) :
  lock_disciplined held w (snd (BasePort.send msg w)).
Proof.
  unfold BasePort.send.
  destruct (is_output _) as [[|]|e]; simpl;
    try (apply lock_disciplined_same_trace; reflexivity).
  destruct (closed (self w)); simpl;
    [apply lock_disciplined_same_trace; reflexivity|].
  apply with_lock_disciplined.
  destruct (copy msg _) as [[msg'|e] h'] eqn:Hc; simpl.
  - step_lock (set_heap h' (log EvAcquire w)).
    + apply lock_disciplined_same_trace. reflexivity.
    + apply lock_disciplined_hook. reflexivity.
  - apply lock_disciplined_same_trace. reflexivity.
Qed.

Lemma send_each_lock_disciplined (held : nat) (msgs : list Message) (w : World D) :
  lock_disciplined held w (snd (BasePort.send_each msgs w)).
Proof.
  revert w. induction msgs as [|m rest IH]; intros w; simpl.
  - apply lock_disciplined_same_trace. reflexivity.
  - unfold bind.
    pose proof (send_lock_disciplined held (length (heap w))
                  (set_heap (heap w ++ [m]) w)) as Hs.
    destruct (BasePort.send _ _) as [[[]|e] w1]; simpl in *.
    + step_lock w1; [|apply IH].
      step_lock (set_heap (heap w ++ [m]) w); [|exact Hs].
      apply lock_disciplined_same_trace. reflexivity.
    + step_lock (set_heap (heap w ++ [m]) w); [|exact Hs].
      apply lock_disciplined_same_trace. reflexivity.
Qed.

Lemma reset_lock_disciplined (held : nat) (w : World D) :
  lock_disciplined held w (snd (BasePort.reset w)).
Proof.
  unfold BasePort.reset.
  destruct (closed (self w));
    [exact (lock_disciplined_same_trace held w w eq_refl)
    | exact (send_each_lock_disciplined held _ w)].
Qed.

Lemma panic_lock_disciplined (held : nat) (w : World D) :
  lock_disciplined held w (snd (BasePort.panic w)).
Proof.
  unfold BasePort.panic.
  destruct (closed (self w));
    [exact (lock_disciplined_same_trace held w w eq_refl)
    | exact (send_each_lock_disciplined held _ w)].
Qed.

Lemma close_block_lock_disciplined (held : nat) (w : World D) :
  lock_disciplined (S held) w (snd (BasePort.close_block w)).
Proof.
  destruct (closed (self w)) eqn:Hc.
  - rewrite (close_block_closed w Hc).
    apply lock_disciplined_same_trace. reflexivity.
  - rewrite (close_block_open w Hc).
    assert (Hstep : lock_disciplined (S held) w
                      (snd (if truthy (autoreset (self w))
                            then try_except_IOError BasePort.reset w
                            else (Ok tt, w)))).
    { destruct (truthy (autoreset (self w))).
      - unfold try_except_IOError.
        pose proof (reset_lock_disciplined (S held) w) as Hr.
        destruct (BasePort.reset w) as [[[]|e] w1]; simpl in *;
          [exact Hr|]. destruct (is_IOError e); exact Hr.
      - apply lock_disciplined_same_trace. reflexivity. }
    destruct (if truthy (autoreset (self w)) then _ else _) as [[[]|e] w1];
      simpl in Hstep; [|exact Hstep].
    pose proof (lock_disciplined_hook held EvClose _close w1 eq_refl) as Hh.
    destruct (call_hook EvClose _close w1) as [[[]|e] w2]; simpl in *.
    + step_lock w2; [|apply lock_disciplined_same_trace; reflexivity].
      step_lock w1; assumption.
    + step_lock w1; assumption.
Qed.

Lemma close_lock_disciplined (held : nat) (w : World D) :
  lock_disciplined held w (snd (BasePort.close w)).
Proof.
  unfold BasePort.close. apply with_lock_disciplined.
  apply close_block_lock_disciplined.
Qed.

Lemma receive_prologue_lock_disciplined (block : bool) (w : World D) :
  lock_disciplined 0 w (snd (BasePort.receive_prologue block w)).
Proof.
  unfold BasePort.receive_prologue.
  destruct (is_input _) as [[|]|e]; simpl;
    try (apply lock_disciplined_same_trace; reflexivity).
  assert (Hw : lock_disciplined 0 w (snd (with_lock BasePort.receive_pending_block w))).
  { apply with_lock_disciplined. apply lock_disciplined_same_trace.
    unfold BasePort.receive_pending_block.
    destruct (_messages (self (log EvAcquire w))); reflexivity. }
  destruct (with_lock _ w) as [[[msg|]|e] w1]; simpl in *; try exact Hw.
  destruct (closed (self w1)); [destruct block|]; exact Hw.
Qed.

Lemma receive_iter_lock_disciplined (block : bool) (w : World D) :
  lock_disciplined 0 w (snd (BasePort.receive_iter block w)).
Proof.
  unfold BasePort.receive_iter.
  assert (Hw : lock_disciplined 0 w
                 (snd (with_lock (BasePort.receive_poll_block block) w))).
  { apply with_lock_disciplined. exists [EvReceive block].
    split; [apply receive_poll_block_trace | reflexivity]. }
  destruct (with_lock _ w) as [[[msg|]|e] w1]; simpl in *; try exact Hw.
  step_lock w1; [exact Hw | apply lock_disciplined_sleep].
Qed.

Lemma receive_alone_lock_disciplined (block : bool) (w : World D) :
  lock_disciplined 0 w (snd (BasePort.receive block [] w)).
Proof.
  unfold BasePort.receive.
  pose proof (receive_prologue_lock_disciplined block w) as Hp.
  destruct (BasePort.receive_prologue block w) as [[r|] w1]; simpl in *; [assumption|].
  pose proof (receive_iter_lock_disciplined block w1) as Hi.
  destruct (BasePort.receive_iter block w1) as [[r|] w2]; simpl in *;
    step_lock w1; assumption.
Qed.

Lemma iter_pending_lock_disciplined (fuel : nat) (w : World D) :
  lock_disciplined 0 w (snd (BasePort.iter_pending fuel w)).
Proof.
  revert w. induction fuel as [|n IH]; intros w; simpl;
    [apply lock_disciplined_same_trace; reflexivity|].
  assert (Hr : lock_disciplined 0 w (snd (BasePort.receive_nowait w))).
  { unfold BasePort.receive_nowait.
    pose proof (receive_alone_lock_disciplined false w) as Hr.
    destruct (BasePort.receive false [] w) as [[r|] w1]; simpl in *; assumption. }
  destruct (BasePort.receive_nowait w) as [[v|e] w1]; simpl in *; [|assumption].
  specialize (IH w1).
  destruct v; simpl; try assumption;
    destruct (BasePort.iter_pending n w1) as [[msgs e] w2]; simpl in *;
    step_lock w1; assumption.
Qed.

(** Whatever sequence of operations a caller runs on a port of any class
    and with either lock, and whether they return or raise, the port only
    appends events that keep the discipline of [with self._lock]: every
    entry into a block is matched by its exit (also when an exception leaves
    the block and when leaving it raises), every transport send, receive
    and close happens inside a block, any sleep happens outside every
    block, and the port is outside every block again at the end.  With the
    re-entrant lock, being inside a block is holding the lock. *)
Theorem operations_keep_lock_discipline (cs : list Call) (w : World D) :
  exists delta,
    trace (self (run_calls cs w)) = trace (self w) ++ delta /\
    lock_walk 0 delta = Some 0%nat.
Proof.
  change (lock_disciplined 0 w (run_calls cs w)).
  revert w. induction cs as [|c cs IH]; intros w.
  - apply lock_disciplined_same_trace. reflexivity.
  - simpl. step_lock (run_call c w); [|apply IH].
    destruct c; simpl.
    + apply close_lock_disciplined.
    + apply send_lock_disciplined.
    + apply receive_alone_lock_disciplined.
    + apply reset_lock_disciplined.
    + apply panic_lock_disciplined.
    + apply iter_pending_lock_disciplined.
Qed.

End LockDiscipline.

(** ** EchoPort: loopback *)

Lemma echo_locking : _locking EchoPort.Attrs = true.
Proof. reflexivity. Qed.

Lemma echo_send (w : World EchoPort.Attrs) (r : nat) (m : Message) :
  closed (self w) = false ->
  heap w !! r = Some m ->
  BasePort.send r w =
  (Ok tt,
   mkWorld (heap w ++ [m])
           (mkPort (name (self w)) (autoreset (self w))
                   (_messages (self w) ++ [length (heap w)]) false (drv (self w))
                   (trace (self w) ++ [EvAcquire; EvSend (length (heap w)); EvRelease]))).
Proof.
  intros Hc Hr. destruct (copy_fresh r m (heap w) Hr) as (Hcopy & _).
  unfold BasePort.send, with_lock, call_hook. simpl. rewrite Hc. simpl.
  rewrite Hcopy. unfold log. simpl. rewrite <- !app_assoc. reflexivity.
Qed.

Lemma echo_sends (rs : list nat) (ms : list Message) (w : World EchoPort.Attrs) :
  closed (self w) = false ->
  Forall2 (fun r m => heap w !! r = Some m) rs ms ->
  heap (run_calls (map CallSend rs) w) = heap w ++ ms /\
  _messages (self (run_calls (map CallSend rs) w)) =
    _messages (self w) ++ seq (length (heap w)) (length rs) /\
  closed (self (run_calls (map CallSend rs) w)) = false.
Proof.
  intros Hc Hall. revert ms w Hc Hall.
  induction rs as [|r rs IH]; intros ms w Hc Hall.
  - apply Forall2_nil_inv_l in Hall. subst ms. simpl.
    rewrite !app_nil_r. auto.
  - apply Forall2_cons_inv_l in Hall. destruct Hall as (m & ms' & Hr & Hall & ->).
    simpl. rewrite (echo_send w r m Hc Hr). simpl.
    match goal with |- context [run_calls _ ?w1] => set (w1' := w1) end.
    destruct (IH ms' w1') as (Hh & Hq & Hcl); [reflexivity| |].
    + subst w1'. simpl. eapply Forall2_impl; [exact Hall|].
      intros r0 m0 H0. simpl in H0.
      rewrite lookup_app_l; [exact H0|]. eapply lookup_lt_Some; exact H0.
    + rewrite Hh, Hq, Hcl. subst w1'. simpl.
      rewrite length_app, <- !app_assoc. simpl.
      replace (length (heap w) + 1)%nat with (S (length (heap w))) by lia.
      auto.
Qed.

(** Loopback through an open EchoPort of any state: after [send] of the
    messages [rs] one by one, as many [receive] calls as there are pending
    messages return first what was already pending and then one new object
    per message sent, in the order sent; the i-th new object is not the
    caller's (it lies beyond the caller's heap) and has the contents of the
    i-th message sent; the queue is empty afterwards. *)
Theorem echo_loopback_in_order
        (w : World EchoPort.Attrs) (rs : list nat) (ms : list Message) (block : bool) :
  closed (self w) = false ->
  Forall2 (fun r m => heap w !! r = Some m) rs ms ->
  exists w2,
    receive_n (length (_messages (self w)) + length rs) block []
              (run_calls (map CallSend rs) w) =
      (map (fun r => Some (Ok (VMsg r)))
           (_messages (self w) ++ seq (length (heap w)) (length rs)), w2) /\
    _messages (self w2) = [] /\
    heap w2 = heap w ++ ms /\
    (forall i : nat, (i < length rs)%nat ->
                     heap w2 !! (length (heap w) + i)%nat = ms !! i).
Proof.
  intros Hc Hall.
  destruct (echo_sends rs ms w Hc Hall) as (Hh & Hq & _).
  assert (Hin : is_input (drv (self (run_calls (map CallSend rs) w))) = Ok true)
    by reflexivity.
  destruct (receive_n_drains block []
              (_messages (self w) ++ seq (length (heap w)) (length rs))
              (run_calls (map CallSend rs) w) echo_locking Hin Hq)
    as (w2 & Hn & Hq2 & _ & Hh2).
  exists w2. rewrite length_app, length_seq in Hn.
  split; [exact Hn|]. split; [exact Hq2|].
  rewrite Hh2, Hh. split; [reflexivity|].
  intros i _. rewrite lookup_app_r by lia.
  f_equal. lia.
Qed.

Lemma echo_loopback_in_order_witness :
  exists w2,
    receive_n 2 true [] (run_calls [CallSend 1%nat; CallSend 0%nat] Examples.echo) =
      ([Some (Ok (VMsg 2%nat)); Some (Ok (VMsg 3%nat))], w2) /\
    _messages (self w2) = [] /\
    heap w2 = [Examples.note_a; Examples.note_b; Examples.note_b; Examples.note_a] /\
    (forall i : nat, (i < 2)%nat ->
                     heap w2 !! (2 + i)%nat = [Examples.note_b; Examples.note_a] !! i).
Proof.
  apply (echo_loopback_in_order Examples.echo [1%nat; 0%nat]
           [Examples.note_b; Examples.note_a] true eq_refl).
  repeat constructor.
Defined.

(** ** EchoPort: reset and panic *)

Lemma echo_send_each (msgs : list Message) (w : World EchoPort.Attrs) :
  closed (self w) = false ->
  exists new ext w',
    BasePort.send_each msgs w = (Ok tt, w') /\
    _messages (self w') = _messages (self w) ++ new /\
    heap w' = heap w ++ ext /\
    Forall2 (fun r m => heap w' !! r = Some m) new msgs /\
    closed (self w') = false.
Proof.
  revert w. induction msgs as [|m rest IH]; intros w Hc.
  - exists [], [], w. simpl. rewrite !app_nil_r. repeat split; auto.
  - simpl. unfold bind.
    assert (Hm : heap (set_heap (heap w ++ [m]) w) !! length (heap w) = Some m).
    { simpl. rewrite lookup_app_r by lia. rewrite Nat.sub_diag. reflexivity. }
    rewrite (echo_send (set_heap (heap w ++ [m]) w) (length (heap w)) m Hc Hm).
    simpl.
    match goal with |- context [BasePort.send_each rest ?w1] => set (w1' := w1) end.
    destruct (IH w1' eq_refl) as (new & ext & w' & Hs & Hq & Hh & Hall & Hcl).
    exists (length (heap w ++ [m]) :: new), ([m; m] ++ ext), w'.
    rewrite Hs. split; [reflexivity|].
    subst w1'. simpl in Hq, Hh.
    split; [rewrite Hq, <- app_assoc; reflexivity|].
    split; [rewrite Hh, <- !app_assoc; reflexivity|].
    split; [|exact Hcl].
    constructor; [|exact Hall].
    rewrite Hh, <- !app_assoc. simpl.
    rewrite lookup_app_r by (rewrite length_app; simpl; lia).
    rewrite length_app. simpl.
    replace (length (heap w) + 1 - length (heap w))%nat with 1%nat by lia.
    reflexivity.
Qed.

(** [reset()] and [panic()] on an open EchoPort return normally and append
    to its pending queue one new message per message of [reset_messages()]
    (32) and of [panic_messages()] (16), with those contents and in that
    order; what was pending stays in front and no existing message object
    is changed. *)
Theorem echo_reset_and_panic_queue_their_messages (w : World EchoPort.Attrs) :
  closed (self w) = false ->
  (exists new ext w',
      BasePort.reset w = (Ok tt, w') /\
      _messages (self w') = _messages (self w) ++ new /\
      heap w' = heap w ++ ext /\
      map (fun r => heap w' !! r) new = map Some (reset_messages 16) /\
      length new = 32%nat) /\
  (exists new ext w',
      BasePort.panic w = (Ok tt, w') /\
      _messages (self w') = _messages (self w) ++ new /\
      heap w' = heap w ++ ext /\
      map (fun r => heap w' !! r) new = map Some (panic_messages 16) /\
      length new = 16%nat).
Proof.
  intros Hc.
  assert (Hmap : forall (h : list Message) new msgs,
             Forall2 (fun r m => h !! r = Some m) new msgs ->
             map (fun r => h !! r) new = map Some msgs).
  { intros h new msgs Hall. induction Hall as [|r m new' msgs' Hr _ IH]; simpl;
      [reflexivity|]. rewrite Hr, IH. reflexivity. }
  split.
  - destruct (echo_send_each (reset_messages DEFAULT_NUM_CHANNELS) w Hc)
      as (new & ext & w' & Hs & Hq & Hh & Hall & _).
    exists new, ext, w'. unfold BasePort.reset. rewrite Hc.
    repeat split; try assumption.
    + apply Hmap. exact Hall.
    + rewrite (Forall2_length _ _ _ Hall). reflexivity.
  - destruct (echo_send_each (panic_messages DEFAULT_NUM_CHANNELS) w Hc)
      as (new & ext & w' & Hs & Hq & Hh & Hall & _).
    exists new, ext, w'. unfold BasePort.panic. rewrite Hc.
    repeat split; try assumption.
    + apply Hmap. exact Hall.
    + rewrite (Forall2_length _ _ _ Hall). reflexivity.
Qed.

Lemma echo_reset_and_panic_witness :
  exists new ext w',
    BasePort.panic Examples.echo_a = (Ok tt, w') /\
    _messages (self w') = _messages (self Examples.echo_a) ++ new /\
    heap w' = heap Examples.echo_a ++ ext /\
    map (fun r => heap w' !! r) new = map Some (panic_messages 16) /\
    length new = 16%nat.
Proof.
  exact (proj2 (echo_reset_and_panic_queue_their_messages Examples.echo_a eq_refl)).
Defined.

(** ** iter_pending *)

Section IterPending.
Context {D : Type} `{PortClass D}.

Lemma receive_nowait_pending (w : World D) (m : nat) (q : list nat) :
  _locking D = true ->
  is_input (drv (self w)) = Ok true ->
  _messages (self w) = m :: q ->
  BasePort.receive_nowait w =
  (Ok (VMsg m), log EvRelease (set_messages q (log EvAcquire w))).
Proof.
  intros Hlk Hin Hq. unfold BasePort.receive_nowait.
  rewrite (receive_pending false [] w m q Hlk Hin Hq). reflexivity.
Qed.

Lemma receive_nowait_nothing (w : World D) :
  _locking D = true ->
  is_input (drv (self w)) = Ok true ->
  (forall hs, _receive false hs = (Ok VNone, hs)) ->
  _messages (self w) = [] ->
  exists w',
    BasePort.receive_nowait w = (Ok VNone, w') /\
    _messages (self w') = [] /\
    heap w' = heap w /\
    closed (self w') = closed (self w) /\
    drv (self w') = drv (self w).
Proof.
  intros Hlk Hin Hpassive Hq.
  unfold BasePort.receive_nowait, BasePort.receive, BasePort.receive_prologue.
  rewrite Hin, (with_lock_locking _ w Hlk).
  unfold BasePort.receive_pending_block. simpl. rewrite Hq. simpl.
  destruct (closed (self w)) eqn:Hc.
  - eexists. split; [reflexivity|]. simpl. auto.
  - simpl. unfold BasePort.receive_iter. rewrite (with_lock_locking _ _ Hlk).
    unfold BasePort.receive_poll_block, call_hook. simpl.
    rewrite Hpassive. simpl. rewrite Hq. simpl.
    eexists. split; [reflexivity|]. simpl. auto.
Qed.

Lemma iter_pending_drains (fuel : nat) (w : World D) :
  _locking D = true ->
  is_input (drv (self w)) = Ok true ->
  (forall hs, _receive false hs = (Ok VNone, hs)) ->
  (length (_messages (self w)) < fuel)%nat ->
  exists w',
    BasePort.iter_pending fuel w = (map VMsg (_messages (self w)), Finished, w') /\
    _messages (self w') = [] /\
    heap w' = heap w /\
    closed (self w') = closed (self w) /\
    drv (self w') = drv (self w).
Proof.
  intros Hlk Hin Hpassive.
  remember (_messages (self w)) as q eqn:Hq. symmetry in Hq.
  revert w fuel Hin Hq. induction q as [|m q IH]; intros w fuel Hin Hq Hf.
  - destruct fuel as [|n]; [simpl in Hf; lia|].
    destruct (receive_nowait_nothing w Hlk Hin Hpassive Hq)
      as (w' & Hr & Hq' & Hh & Hc & Hd).
    exists w'. simpl. rewrite Hr. auto.
  - destruct fuel as [|n]; [simpl in Hf; lia|].
    simpl. rewrite (receive_nowait_pending w m q Hlk Hin Hq).
    destruct (IH (log EvRelease (set_messages q (log EvAcquire w))) n Hin eq_refl)
      as (w' & Hi & Hrest); [simpl in Hf; lia|].
    exists w'. rewrite Hi. auto.
Qed.

(** On an input port with the re-entrant lock whose transport has nothing
    to hand over when polled (as EchoPort's and the ALSA port's
    [_receive]), open or closed, [iter_pending()] yields exactly the pending
    messages, oldest first, and then ends; it leaves the queue empty and the
    heap, the closed flag and the subclass attributes as they were.  A
    consumer that stops after [fuel] items has got the first [fuel] pending
    messages.  On a port whose class sets [_locking = False] the first item
    the consumer asks for is a [TypeError] instead, and the oldest pending
    message is gone. *)
Theorem iter_pending_yields_the_queue (fuel : nat) (w : World D) :
  is_input (drv (self w)) = Ok true ->
  (_locking D = true ->
   (forall hs, _receive false hs = (Ok VNone, hs)) ->
   ((length (_messages (self w)) < fuel)%nat ->
    exists w',
      BasePort.iter_pending fuel w = (map VMsg (_messages (self w)), Finished, w') /\
      _messages (self w') = [] /\
      heap w' = heap w /\
      closed (self w') = closed (self w) /\
      drv (self w') = drv (self w)) /\
   ((fuel <= length (_messages (self w)))%nat ->
    exists w',
      BasePort.iter_pending fuel w =
        (map VMsg (take fuel (_messages (self w))), Suspended, w') /\
      _messages (self w') = drop fuel (_messages (self w)))) /\
  (_locking D = false ->
   exists w',
     BasePort.iter_pending (S fuel) w =
       ([], Failed (TypeError
                      "DummyLock.release() takes 1 positional argument but 4 were given"),
        w') /\
     _messages (self w') = tl (_messages (self w))).
Proof.
  intros Hin. split.
  - intros Hlk Hpassive. split.
    + apply (iter_pending_drains fuel w Hlk Hin Hpassive).
    + remember (_messages (self w)) as q eqn:Hq. symmetry in Hq.
      revert w fuel Hin Hq. induction q as [|m q IH]; intros w fuel Hin Hq Hf.
      * simpl in Hf. replace fuel with O by lia. exists w. simpl. auto.
      * destruct fuel as [|n].
        -- exists w. simpl. auto.
        -- simpl. rewrite (receive_nowait_pending w m q Hlk Hin Hq).
           destruct (IH (log EvRelease (set_messages q (log EvAcquire w))) n Hin eq_refl)
             as (w' & Hi & Hrest); [simpl in Hf; lia|].
           exists w'. rewrite Hi. auto.
  - intros Hlk. simpl. unfold BasePort.receive_nowait.
    rewrite (receive_unlocked false [] w Hlk Hin).
    eexists. split; reflexivity.
Qed.

End IterPending.

Lemma iter_pending_witness :
  (exists w',
     BasePort.iter_pending 3 Examples.echo_ab_closed =
       ([VMsg 2%nat; VMsg 3%nat], Finished, w') /\
     _messages (self w') = [] /\
     heap w' = heap Examples.echo_ab_closed /\
     closed (self w') = true /\
     drv (self w') = drv (self Examples.echo_ab_closed)) /\
  (exists w',
     BasePort.iter_pending 3 Examples.shared_a =
       ([], Failed (TypeError
                      "DummyLock.release() takes 1 positional argument but 4 were given"),
        w') /\
     _messages (self w') = []).
Proof.
  assert (Hin : is_input (drv (self Examples.echo_ab_closed)) = Ok true)
    by reflexivity.
  assert (Hpassive : forall hs : HookSt EchoPort.Attrs, _receive false hs = (Ok VNone, hs))
    by (intros hs; reflexivity).
  assert (Hin' : is_input (drv (self Examples.shared_a)) = Ok true) by reflexivity.
  assert (Hlk' : _locking Examples.Shared = false) by reflexivity.
  split.
  - apply (proj1 (proj1 (iter_pending_yields_the_queue 3 Examples.echo_ab_closed Hin)
                    echo_locking Hpassive)).
    simpl. lia.
  - exact (proj2 (iter_pending_yields_the_queue 2 Examples.shared_a Hin') Hlk').
Defined.

(** ** MultiPort: capabilities and fan-out *)

Section MultiPortFanOut.
Context {C : Type} `{PortClass C}.

Lemma any_is_input_spec (ps : list (Port C)) :
  (forall p, p ∈ ps -> exists b, is_input (drv p) = Ok b) ->
  exists b, MultiPort.any_is_input ps = Ok b /\
            (b = true <-> exists p, p ∈ ps /\ is_input (drv p) = Ok true).
Proof.
  induction ps as [|p ps IH]; intros Hans.
  - exists false. split; [reflexivity|]. split; [discriminate|].
    intros (p & Hp & _). inversion Hp.
  - destruct (Hans p) as [b Hb]; [left|].
    simpl. rewrite Hb. destruct b.
    + exists true. split; [reflexivity|]. split; [|reflexivity].
      intros _. exists p. split; [left|exact Hb].
    + destruct IH as (b & Hany & Hiff).
      { intros q Hq. apply Hans. right. exact Hq. }
      exists b. split; [exact Hany|]. rewrite Hiff. split.
      * intros (q & Hq & Hqb). exists q. split; [right; exact Hq|exact Hqb].
      * intros (q & Hq & Hqb). apply elem_of_cons in Hq. destruct Hq as [->|Hq].
        -- congruence.
        -- exists q. auto.
Qed.

Lemma any_is_output_spec (ps : list (Port C)) :
  (forall p, p ∈ ps -> exists b, is_output (drv p) = Ok b) ->
  exists b, MultiPort.any_is_output ps = Ok b /\
            (b = true <-> exists p, p ∈ ps /\ is_output (drv p) = Ok true).
Proof.
  induction ps as [|p ps IH]; intros Hans.
  - exists false. split; [reflexivity|]. split; [discriminate|].
    intros (p & Hp & _). inversion Hp.
  - destruct (Hans p) as [b Hb]; [left|].
    simpl. rewrite Hb. destruct b.
    + exists true. split; [reflexivity|]. split; [|reflexivity].
      intros _. exists p. split; [left|exact Hb].
    + destruct IH as (b & Hany & Hiff).
      { intros q Hq. apply Hans. right. exact Hq. }
      exists b. split; [exact Hany|]. rewrite Hiff. split.
      * intros (q & Hq & Hqb). exists q. split; [right; exact Hq|exact Hqb].
      * intros (q & Hq & Hqb). apply elem_of_cons in Hq. destruct Hq as [->|Hq].
        -- congruence.
        -- exists q. auto.
Qed.

(** When every child answers its capability queries, a MultiPort is an
    input (output) port exactly when one of its current children says it is
    one; with no children it is neither.  The children's closed flags play
    no part: a MultiPort whose output children are all closed still reports
    output capability. *)
Theorem multiport_capability_is_any_child (a : MultiPort.Attrs C) :
  ((forall p, p ∈ MultiPort.ports a -> exists b, is_input (drv p) = Ok b) ->
   exists b, MultiPort.is_input a = Ok b /\
             (b = true <->
              exists p, p ∈ MultiPort.ports a /\ is_input (drv p) = Ok true)) /\
  ((forall p, p ∈ MultiPort.ports a -> exists b, is_output (drv p) = Ok b) ->
   exists b, MultiPort.is_output a = Ok b /\
             (b = true <->
              exists p, p ∈ MultiPort.ports a /\ is_output (drv p) = Ok true)).
Proof.
  split; intros Hans.
  - destruct (any_is_input_spec (MultiPort.ports a) Hans) as (b & Hany & Hiff).
    exists b. split; [|exact Hiff].
    unfold MultiPort.is_input. destruct (MultiPort.ports a); [|exact Hany].
    simpl in Hany. exact Hany.
  - destruct (any_is_output_spec (MultiPort.ports a) Hans) as (b & Hany & Hiff).
    exists b. split; [|exact Hiff].
    unfold MultiPort.is_output. destruct (MultiPort.ports a); [|exact Hany].
    simpl in Hany. exact Hany.
Qed.

(** What [_send] may do to one child. *)
Lemma send_to_each_children (message : nat) (ps : list (Port C)) (h : list Message) :
  Forall2 (fun p p' =>
             closed p' = closed p /\
             name p' = name p /\
             autoreset p' = autoreset p /\
             (closed p = true \/ is_output (drv p) <> Ok true -> p' = p))
          ps (fst (snd (MultiPort.send_to_each message ps h))).
Proof.
  revert h. induction ps as [|p rest IH]; intros h; simpl; [constructor|].
  assert (Hskip : Forall2 (fun p p' =>
             closed p' = closed p /\ name p' = name p /\
             autoreset p' = autoreset p /\
             (closed p = true \/ is_output (drv p) <> Ok true -> p' = p))
            (p :: rest)
            (fst (snd (let '(r, (rest', h')) := MultiPort.send_to_each message rest h in
                       (r, (p :: rest', h')))))).
  { specialize (IH h).
    destruct (MultiPort.send_to_each message rest h) as [r [rest' h']]. simpl in *.
    constructor; [auto|exact IH]. }
  assert (Hsame : Forall2 (fun p p' =>
             closed p' = closed p /\ name p' = name p /\
             autoreset p' = autoreset p /\
             (closed p = true \/ is_output (drv p) <> Ok true -> p' = p))
            rest rest).
  { clear. induction rest; constructor; auto. }
  destruct (is_output (drv p)) as [[|]|e] eqn:Hout.
  - destruct (closed p) eqn:Hc; [exact Hskip|].
    pose proof (send_same_lifecycle message (mkWorld h p)) as (Hcl & Hn & Ha & _).
    destruct (BasePort.send message (mkWorld h p)) as [[[]|e] w]; simpl in *.
    + specialize (IH (heap w)).
      destruct (MultiPort.send_to_each message rest (heap w)) as [r [rest' h']].
      simpl in *. constructor; [|exact IH].
      repeat split; try assumption.
      intros [Hf|Hf]; congruence.
    + constructor; [|exact Hsame].
      repeat split; try assumption.
      intros [Hf|Hf]; congruence.
  - exact Hskip.
  - simpl. constructor; [auto|exact Hsame].
Qed.

Lemma multiport_send_skips_children_helper
      (message : nat) (ps : list (Port C)) (h : list Message) :
  map closed (fst (snd (MultiPort.send_to_each message ps h))) = map closed ps.
Proof.
  pose proof (send_to_each_children message ps h) as Hall.
  induction Hall as [|p p' l l' (Hc & _) _ IH]; simpl; [reflexivity|].
  rewrite Hc, IH. reflexivity.
Qed.

(** The fan-out of [MultiPort._send] keeps the children in number and
    order, never changes a child's closed flag, name or autoreset, and
    leaves every child that is closed or not output-capable exactly as it
    was, whether the fan-out completes or a child's [send] raises. *)
Theorem multiport_send_skips_closed_and_input_children
        (message : nat) (ps : list (Port C)) (h : list Message) :
  let ps' := fst (snd (MultiPort.send_to_each message ps h)) in
  length ps' = length ps /\
  map closed ps' = map closed ps /\
  (forall i p, ps !! i = Some p ->
     closed p = true \/ is_output (drv p) <> Ok true ->
     ps' !! i = Some p).
Proof.
  pose proof (send_to_each_children message ps h) as Hall.
  cbv zeta. split; [|split].
  - symmetry. apply (Forall2_length _ _ _ Hall).
  - induction Hall as [|p p' l l' (Hc & _) _ IH]; simpl; [reflexivity|].
    rewrite Hc, IH. reflexivity.
  - intros i p Hi Hskip.
    destruct (Forall2_lookup_l _ _ _ _ _ Hall Hi) as (p' & Hi' & _ & _ & _ & Hsame).
    rewrite Hi', (Hsame Hskip). reflexivity.
Qed.


Lemma multiport_send_keeps_children_flags
      (msg : nat) (w : World (MultiPort.Attrs C)) :
  map closed (MultiPort.ports (drv (self (snd (BasePort.send msg w))))) =
  map closed (MultiPort.ports (drv (self w))).
Proof.
  unfold BasePort.send.
  destruct (is_output _) as [[|]|e]; simpl; try reflexivity.
  destruct (closed (self w)); simpl; [reflexivity|].
  unfold with_lock.
  destruct (copy msg _) as [[msg'|e] h'] eqn:Hc; simpl; [|reflexivity].
  unfold call_hook. simpl. unfold MultiPort._send. simpl.
  pose proof (multiport_send_skips_children_helper msg') as Hk.
  specialize (Hk (MultiPort.ports (drv (self w))) h').
  destruct (MultiPort.send_to_each msg' (MultiPort.ports (drv (self w))) h')
    as [r [ps' h'']]. simpl in *. exact Hk.
Qed.

End MultiPortFanOut.

Lemma multiport_capability_witness :
  exists b,
    MultiPort.is_input (drv (self Examples.multi)) = Ok b /\
    (b = true <->
     exists p, p ∈ MultiPort.ports (drv (self Examples.multi)) /\
               is_input (drv p) = Ok true).
Proof.
  apply (proj1 (multiport_capability_is_any_child (drv (self Examples.multi)))).
  intros p _. exists true. reflexivity.
Defined.

Lemma multiport_send_skips_witness :
  fst (snd (MultiPort.send_to_each 0%nat [self Examples.echo_closed]
                                   (heap Examples.echo_closed))) !! 0%nat
  = Some (self Examples.echo_closed).
Proof.
  apply (proj2 (proj2 (multiport_send_skips_closed_and_input_children
                         0%nat [self Examples.echo_closed]
                         (heap Examples.echo_closed)))
               0%nat (self Examples.echo_closed) eq_refl).
  left. reflexivity.
Defined.


(** The second of two unplugged children is not touched once the first has
    failed. *)
Example fan_out_stops_at_unplugged_child :
  let '(r, (ps', _)) :=
    MultiPort.send_to_each 0%nat
      [self Examples.unplugged; self Examples.unplugged_plain] [Examples.note_a] in
  r = Raise (IOError "device unplugged") /\
  map (fun p => length (trace p)) ps' = [4%nat; 1%nat].
Proof. vm_compute. split; reflexivity. Qed.

(** ** MultiPort: close *)

Section MultiPortClose.
Context {C : Type} `{PortClass C}.

Lemma multiport_send_each_keeps_children_flags
      (msgs : list Message) (w : World (MultiPort.Attrs C)) :
  map closed (MultiPort.ports (drv (self (snd (BasePort.send_each msgs w))))) =
  map closed (MultiPort.ports (drv (self w))).
Proof.
  revert w. induction msgs as [|m rest IH]; intros w; simpl; [reflexivity|].
  unfold bind.
  pose proof (multiport_send_keeps_children_flags (length (heap w))
                (set_heap (heap w ++ [m]) w)) as Hs.
  destruct (BasePort.send _ _) as [[[]|e] w1]; simpl in *.
  - rewrite IH. exact Hs.
  - exact Hs.
Qed.

Lemma multiport_reset_keeps_children_flags (w : World (MultiPort.Attrs C)) :
  map closed (MultiPort.ports (drv (self (snd (BasePort.reset w))))) =
  map closed (MultiPort.ports (drv (self w))).
Proof.
  unfold BasePort.reset.
  destruct (closed (self w));
    [reflexivity | exact (multiport_send_each_keeps_children_flags _ w)].
Qed.

Lemma multiport_try_reset_keeps_children_flags (w : World (MultiPort.Attrs C)) :
  map closed (MultiPort.ports (drv (self (snd (try_except_IOError BasePort.reset w))))) =
  map closed (MultiPort.ports (drv (self w))).
Proof.
  unfold try_except_IOError.
  pose proof (multiport_reset_keeps_children_flags w) as Hr.
  destruct (BasePort.reset w) as [[[]|e] w1]; [exact Hr|].
  destruct (is_IOError e); exact Hr.
Qed.

(** [close()] on a MultiPort never closes a child, whether it returns or
    raises: the children are the same in number and every child's closed
    flag is what it was. *)
Theorem multiport_close_never_closes_children (w : World (MultiPort.Attrs C)) :
  map closed (MultiPort.ports (drv (self (snd (BasePort.close w))))) =
  map closed (MultiPort.ports (drv (self w))).
Proof.
  destruct (closed (self w)) eqn:Hc.
  - rewrite (close_closed w multiport_locking Hc). reflexivity.
  - rewrite (close_open w multiport_locking Hc).
    assert (Hstep :
      map closed (MultiPort.ports (drv (self (snd
        (if truthy (autoreset (self w))
         then try_except_IOError BasePort.reset (log EvAcquire w)
         else (Ok tt, log EvAcquire w)))))) =
      map closed (MultiPort.ports (drv (self w)))).
    { destruct (truthy (autoreset (self w))); [|reflexivity].
      exact (multiport_try_reset_keeps_children_flags (log EvAcquire w)). }
    destruct (if truthy (autoreset (self w)) then _ else _) as [[[]|e] w1];
      simpl in Hstep; [|exact Hstep].
    unfold call_hook. simpl. exact Hstep.
Qed.

End MultiPortClose.

(** ** MultiPort over EchoPorts: fan-out *)







(** ** MultiPort: the sweep of the generator *)

Section Sweep.
Context {C : Type} `{PortClass C}.




End Sweep.


(** ** Backend discovery *)

Lemma discover_all_sound (found : list (string * Backends.Import))
      (acc backends : gmap string Backends.PyModule)
      (key : string) (module : Backends.PyModule) :
  Backends.discover_all acc found = Ok backends ->
  backends !! key = Some module ->
  acc !! key = Some module \/
  ((key, Backends.Imported module) ∈ found /\
   Backends.hasattr_get_devices module = true /\
   Backends.hasattr_Port module = true).
Proof.
  revert acc. induction found as [|[name imported] found IH]; intros acc Hd Hl;
    cbn [Backends.discover_all] in Hd.
  - injection Hd as <-. left. exact Hl.
  - destruct (Backends.discover acc (name, imported)) as [acc'|e] eqn:Hstep;
      [|discriminate].
    destruct (IH _ Hd Hl) as [Hacc|(Hin & Hg & Hp)].
    + destruct (discover_keeps_valid_modules acc acc' name key imported module Hstep Hacc)
        as [Hacc'|(-> & -> & Hg & Hp)].
      * left. exact Hacc'.
      * right. split; [left|auto].
    + right. split; [right; exact Hin|auto].
Qed.

Lemma discover_all_keeps (found : list (string * Backends.Import))
      (acc backends : gmap string Backends.PyModule)
      (key : string) (module : Backends.PyModule) :
  acc !! key = Some module ->
  key ∉ map fst found ->
  Backends.discover_all acc found = Ok backends ->
  backends !! key = Some module.
Proof.
  revert acc. induction found as [|[name imported] found IH]; intros acc Hacc Hnot Hd;
    cbn [Backends.discover_all] in Hd.
  - injection Hd as <-. exact Hacc.
  - destruct (Backends.discover acc (name, imported)) as [acc'|e] eqn:Hstep;
      [|discriminate].
    apply (IH acc'); [| |exact Hd].
    + unfold Backends.discover in Hstep.
      destruct imported as [m|e].
      * destruct (negb (Backends.hasattr_get_devices m) || negb (Backends.hasattr_Port m));
          injection Hstep as <-; [exact Hacc|].
        rewrite lookup_insert_ne; [exact Hacc|].
        intros ->. apply Hnot. simpl. left.
      * destruct (is_Exception e); [|discriminate]. injection Hstep as <-. exact Hacc.
    + intros Hin. apply Hnot. simpl. right. exact Hin.
Qed.

(** Discovery completes when every failing import fails with an
    [Exception]. *)
Lemma discover_all_completes (found : list (string * Backends.Import))
      (acc : gmap string Backends.PyModule) :
  (forall n e, (n, Backends.ImportRaises e) ∈ found -> is_Exception e = true) ->
  exists backends, Backends.discover_all acc found = Ok backends.
Proof.
  revert acc. induction found as [|[name imported] found IH]; intros acc Hexc;
    cbn [Backends.discover_all].
  - eauto.
  - assert (Hstep : exists acc', Backends.discover acc (name, imported) = Ok acc').
    { unfold Backends.discover. destruct imported as [m|e].
      - destruct (negb _ || negb _); eauto.
      - rewrite (Hexc name e) by left. eauto. }
    destruct Hstep as [acc' ->]. apply IH.
    intros n e Hin. apply (Hexc n e). right. exact Hin.
Qed.

(** Discovery is abandoned when some import raises something that is not an
    [Exception]. *)
Lemma discover_all_aborts (found : list (string * Backends.Import))
      (acc : gmap string Backends.PyModule) (n : string) (e : PyExc) :
  (n, Backends.ImportRaises e) ∈ found ->
  is_Exception e = false ->
  exists e', Backends.discover_all acc found = Raise e' /\ is_Exception e' = false.
Proof.
  revert acc. induction found as [|[name imported] found IH]; intros acc Hin He;
    [inversion Hin|].
  cbn [Backends.discover_all].
  destruct (Backends.discover acc (name, imported)) as [acc'|e0] eqn:Hstep.
  - apply IH; [|exact He].
    apply elem_of_cons in Hin. destruct Hin as [[= <- <-]|Hin]; [|exact Hin].
    simpl in Hstep. rewrite He in Hstep. discriminate.
  - exists e0. split; [reflexivity|].
    unfold Backends.discover in Hstep. destruct imported as [m|e1].
    + destruct (negb _ || negb _); discriminate.
    + destruct (is_Exception e1) eqn:He1; [discriminate|].
      injection Hstep as <-. exact He1.
Qed.

(** Every module in the mapping that [get_available_backends()] returns was
    found in the backends directory under that name, was imported without
    an exception and has both [get_devices] and [Port]: a candidate whose
    import raises or that lacks one of them is never registered. *)
Theorem discovery_registers_only_valid_modules
        (found : list (string * Backends.Import))
        (backends : gmap string Backends.PyModule)
        (name : string) (module : Backends.PyModule) :
  Backends.get_available_backends found = Ok backends ->
  backends !! name = Some module ->
  (name, Backends.Imported module) ∈ found /\
  Backends.hasattr_get_devices module = true /\
  Backends.hasattr_Port module = true.
Proof.
  intros Hd Hl. unfold Backends.get_available_backends in Hd.
  destruct (discover_all_sound found ∅ backends name module Hd Hl) as [He|Hok];
    [|exact Hok].
  rewrite lookup_empty in He. discriminate.
Qed.

Lemma discovery_registers_only_valid_witness :
  ("fluidsynth",
   Backends.Imported
     (Backends.mkPyModule "fluidsynth/__init__.py" (Some "get_devices") (Some "Port")))
    ∈ Examples.found.
Proof.
  apply (discovery_registers_only_valid_modules Examples.found
           (<["fluidsynth" :=
                Backends.mkPyModule "fluidsynth/__init__.py" (Some "get_devices")
                                    (Some "Port")]> ∅)
           "fluidsynth"
           (Backends.mkPyModule "fluidsynth/__init__.py" (Some "get_devices") (Some "Port"))).
  - reflexivity.
  - vm_compute. reflexivity.
Defined.

(** When the names in the backends directory are distinct, a module that
    imports and has both attributes is registered under its name, and
    [get_backend] returns it, as long as every candidate whose import fails
    fails with an [Exception]: such candidates, and incomplete ones, do not
    keep the others out.  But when some candidate's import raises something
    else ([SystemExit], [KeyboardInterrupt]), [except Exception] does not
    catch it: discovery raises it and [get_backend] finds no backend at
    all. *)
Theorem discovery_registers_every_valid_module
        (py_repr : string -> string)
        (found : list (string * Backends.Import))
        (name : string) (module : Backends.PyModule) :
  NoDup (map fst found) ->
  (name, Backends.Imported module) ∈ found ->
  Backends.hasattr_get_devices module = true ->
  Backends.hasattr_Port module = true ->
  ((forall n e, (n, Backends.ImportRaises e) ∈ found -> is_Exception e = true) ->
   exists backends,
     Backends.get_available_backends found = Ok backends /\
     backends !! name = Some module /\
     Backends.get_backend py_repr found name = Ok module) /\
  (forall n e, (n, Backends.ImportRaises e) ∈ found -> is_Exception e = false ->
   exists e',
     is_Exception e' = false /\
     Backends.get_available_backends found = Raise e' /\
     Backends.get_backend py_repr found name = Raise e').
Proof.
  intros Hnd Hin Hg Hp. split.
  - intros Hexc.
    destruct (discover_all_completes found ∅ Hexc) as [backends Hd].
    assert (Hl : backends !! name = Some module).
    { clear Hexc. revert Hd. unfold Backends.get_available_backends.
      generalize (∅ : gmap string Backends.PyModule).
      induction found as [|[n imp] found IH]; intros acc Hd; [inversion Hin|].
      simpl in Hnd. apply NoDup_cons in Hnd. destruct Hnd as [Hnotin Hnd].
      cbn [Backends.discover_all] in Hd.
      destruct (Backends.discover acc (n, imp)) as [acc'|e] eqn:Hstep; [|discriminate].
      apply elem_of_cons in Hin. destruct Hin as [[= <- <-]|Hin].
      - apply (discover_all_keeps found acc'); [|exact Hnotin|exact Hd].
        simpl in Hstep. rewrite Hg, Hp in Hstep. simpl in Hstep.
        injection Hstep as <-. apply lookup_insert_eq.
      - apply (IH Hnd Hin acc'). exact Hd. }
    exists backends. split; [exact Hd|]. split; [exact Hl|].
    unfold Backends.get_backend, Backends.get_available_backends.
    rewrite Hd, Hl. reflexivity.
  - intros n e Hbad He.
    destruct (discover_all_aborts found ∅ n e Hbad He) as (e' & Hd & He').
    exists e'. split; [exact He'|]. split; [exact Hd|].
    unfold Backends.get_backend, Backends.get_available_backends. rewrite Hd.
    reflexivity.
Qed.

Lemma discovery_registers_every_valid_witness :
  (exists backends,
     Backends.get_available_backends Examples.found = Ok backends /\
     backends !! "fluidsynth" =
       Some (Backends.mkPyModule "fluidsynth/__init__.py" (Some "get_devices")
                                 (Some "Port")) /\
     Backends.get_backend Examples.plain_repr Examples.found "fluidsynth" =
       Ok (Backends.mkPyModule "fluidsynth/__init__.py" (Some "get_devices")
                               (Some "Port"))) /\
  (exists e',
     is_Exception e' = false /\
     Backends.get_available_backends Examples.found_exiting = Raise e' /\
     Backends.get_backend Examples.plain_repr Examples.found_exiting "fluidsynth" =
       Raise e').
Proof.
  split.
  - apply (proj1 (discovery_registers_every_valid_module Examples.plain_repr
                    Examples.found "fluidsynth" _
                    ltac:(repeat constructor; vm_compute; intros Hin; repeat
                            (apply elem_of_cons in Hin; destruct Hin as [Hin|Hin];
                             [discriminate|]); inversion Hin)
                    ltac:(right; left) eq_refl eq_refl)).
    intros n e Hin.
    apply elem_of_cons in Hin. destruct Hin as [[= -> ->]|Hin]; [reflexivity|].
    apply elem_of_cons in Hin. destruct Hin as [Hin|Hin]; [discriminate|].
    apply elem_of_cons in Hin. destruct Hin as [Hin|Hin]; [discriminate|].
    inversion Hin.
  - apply (proj2 (discovery_registers_every_valid_module Examples.plain_repr
                    Examples.found_exiting "fluidsynth" _
                    ltac:(repeat constructor; vm_compute; intros Hin; repeat
                            (apply elem_of_cons in Hin; destruct Hin as [Hin|Hin];
                             [discriminate|]); inversion Hin)
                    ltac:(right; left) eq_refl eq_refl)
                 "exiting"%string SystemExit).
    + do 3 right. left.
    + reflexivity.
Defined.

(** ** backends/kdmapi: packing a message into an integer *)

Lemma byte_high_bits (b k : Z) :
  0 <= b < 256 -> 8 <= k -> Z.testbit b k = false.
Proof.
  intros Hb Hk. rewrite <- (Z.mod_small b (2 ^ 8)) by (change (2 ^ 8) with 256; lia).
  apply Z.mod_pow2_bits_high. lia.
Qed.

Lemma pack_step_arith (packed b : Z) :
  0 <= b < 256 -> KDMAPI.pack_step packed b = b + 256 * packed.
Proof.
  intros Hb. unfold KDMAPI.pack_step.
  assert (Hdisj : Z.land (Z.shiftl packed 8) b = 0).
  { apply Z.bits_inj'. intros k Hk. rewrite Z.land_spec, Z.bits_0.
    destruct (Z_lt_le_dec k 8) as [Hlt|Hge].
    - rewrite Z.shiftl_spec_low by assumption. reflexivity.
    - rewrite (byte_high_bits b k Hb Hge). apply andb_false_r. }
  rewrite <- Z.lxor_lor by assumption.
  rewrite <- Z.add_nocarry_lxor by assumption.
  rewrite Z.shiftl_mul_pow2 by lia. change (2 ^ 8) with 256. lia.
Qed.

Lemma pack_message_cons (b : Z) (data : list Z) :
  KDMAPI.pack_message (b :: data) = KDMAPI.pack_step (KDMAPI.pack_message data) b.
Proof.
  unfold KDMAPI.pack_message. simpl. rewrite fold_left_app. reflexivity.
Qed.

Lemma pack_message_bounds (data : list Z) :
  Forall (fun b => 0 <= b < 256) data ->
  0 <= KDMAPI.pack_message data < 256 ^ Z.of_nat (length data).
Proof.
  induction 1 as [|b data Hb _ IH].
  - unfold KDMAPI.pack_message. simpl. lia.
  - rewrite pack_message_cons, (pack_step_arith _ b Hb).
    replace (Z.of_nat (length (b :: data))) with (Z.succ (Z.of_nat (length data)))
      by (simpl length; lia).
    rewrite Z.pow_succ_r by lia. lia.
Qed.

Lemma pack_message_byte (data : list Z) (i : nat) (b : Z) :
  Forall (fun b => 0 <= b < 256) data ->
  data !! i = Some b ->
  Z.land (Z.shiftr (KDMAPI.pack_message data) (8 * Z.of_nat i)) 255 = b.
Proof.
  intros Hall. revert i. induction Hall as [|b0 data Hb0 Hall IH]; intros i Hi;
    [discriminate|].
  rewrite pack_message_cons, (pack_step_arith _ b0 Hb0).
  change 255 with (Z.ones 8).
  destruct i as [|i]; simpl in Hi.
  - injection Hi as <-. simpl. rewrite Z.shiftr_0_r.
    rewrite Z.land_ones by lia. change (2 ^ 8) with 256.
    Z.div_mod_to_equations. lia.
  - replace (8 * Z.of_nat (S i)) with (8 + 8 * Z.of_nat i) by lia.
    rewrite <- Z.shiftr_shiftr by lia.
    rewrite (Z.shiftr_div_pow2 _ 8) by lia. change (2 ^ 8) with 256.
    replace ((b0 + 256 * KDMAPI.pack_message data) / 256)
      with (KDMAPI.pack_message data).
    + apply IH. exact Hi.
    + Z.div_mod_to_equations. lia.
Qed.

(** The integer that [_send] hands to [SendDirectData] holds the bytes of
    the message little-endian: for bytes in [0, 256), byte [i] of the
    message is bits [8 i .. 8 i + 7] of the packed value, so the message is
    recovered from it; the value is non-negative and below
    [256 ^ len(bytes)], hence fits 32 bits when the message has at most
    four bytes. *)
Theorem kdmapi_pack_message_little_endian (data : list Z) :
  Forall (fun b => 0 <= b < 256) data ->
  0 <= KDMAPI.pack_message data < 256 ^ Z.of_nat (length data) /\
  (forall (i : nat) (b : Z), data !! i = Some b ->
     Z.land (Z.shiftr (KDMAPI.pack_message data) (8 * Z.of_nat i)) 255 = b) /\
  map (fun i => Z.land (Z.shiftr (KDMAPI.pack_message data) (8 * Z.of_nat i)) 255)
      (seq 0 (length data)) = data /\
  ((length data <= 4)%nat -> KDMAPI.pack_message data < 2 ^ 32).
Proof.
  intros Hall.
  pose proof (pack_message_bounds data Hall) as Hb.
  split; [exact Hb|]. split; [|split].
  - intros i b Hi. apply (pack_message_byte data i b Hall Hi).
  - apply list_eq. intros i. rewrite list_lookup_fmap.
    destruct (data !! i) as [b|] eqn:Hi.
    + rewrite lookup_seq_lt by (eapply lookup_lt_Some; exact Hi).
      simpl. f_equal. apply (pack_message_byte data i b Hall Hi).
    + rewrite lookup_seq_ge by (apply lookup_ge_None; exact Hi). reflexivity.
  - intros Hlen.
    assert (256 ^ Z.of_nat (length data) <= 256 ^ 4).
    { apply Z.pow_le_mono_r; lia. }
    change (256 ^ 4) with (2 ^ 32) in *. lia.
Qed.

Lemma kdmapi_pack_message_witness :
  KDMAPI.pack_message [176; 123; 0] = 31664 /\
  map (fun i => Z.land (Z.shiftr (KDMAPI.pack_message [176; 123; 0]) (8 * Z.of_nat i)) 255)
      (seq 0 3) = [176; 123; 0] /\
  KDMAPI.pack_message [176; 123; 0] < 2 ^ 32.
Proof.
  assert (Hall : Forall (fun b => 0 <= b < 256) [176; 123; 0])
    by (repeat constructor; lia).
  destruct (kdmapi_pack_message_little_endian [176; 123; 0] Hall)
    as (_ & _ & Hround & H32).
  split; [reflexivity|]. split; [exact Hround|]. apply H32. simpl. lia.
Defined.

(** ** backends/kdmapi and types/device.py: opening a device *)

Section KdmapiDevice.
Variable to_bytes : Message -> list Z.
Variable is_system : Message -> bool.

Lemma kdmapi_init (name_arg autoreset_arg : PyVal) (h : list Message) :
  KDMAPI.__init__ to_bytes is_system name_arg autoreset_arg h =
  (Raise NotImplementedError,
   mkWorld h (mkPort name_arg autoreset_arg [] true (KDMAPI.mkAttrs []) [EvOpen])).
Proof. reflexivity. Qed.

(** The KDMAPI backend lists at most one device, output-only; opening it
    always fails: the port class does not override [_open], so the
    constructor raises [NotImplementedError] before it reaches
    [InitializeKDMAPIStream].  The half-built port is closed, the driver was
    never called, and closing it (as its finaliser does) is a no-op that
    does not call the driver either. *)
Theorem kdmapi_device_cannot_be_opened
        (available : bool) (omnimidi_name : string)
        (d : Device.t (Device.Constructor KDMAPI.Attrs))
        (autoreset_kw : option PyVal) (h : list Message) :
  d ∈ KDMAPI.get_devices to_bytes is_system available omnimidi_name ->
  available = true /\
  Device.name d = omnimidi_name /\
  Device.is_input d = false /\
  Device.is_output d = true /\
  exists w,
    Device.open d autoreset_kw h = (Raise NotImplementedError, w) /\
    closed (self w) = true /\
    heap w = h /\
    KDMAPI.driver_calls (drv (self w)) = [] /\
    fst (BasePort.close (H:=KDMAPI.cls to_bytes is_system) w) = Ok tt /\
    KDMAPI.driver_calls
      (drv (self (snd (BasePort.close (H:=KDMAPI.cls to_bytes is_system) w)))) = [].
Proof.
  unfold KDMAPI.get_devices. destruct available; intros Hd; [|inversion Hd].
  simpl in Hd. apply list_elem_of_singleton in Hd. subst d.
  repeat (split; [reflexivity|]).
  unfold Device.open. simpl. rewrite kdmapi_init.
  eexists. split; [reflexivity|]. repeat split.
Qed.

End KdmapiDevice.

Lemma kdmapi_device_witness :
  exists w,
    Device.open (Device.mk "OmniMIDI 14.6.0 Rev. 2"
                           (KDMAPI.__init__ (fun _ => []) (fun _ => false)) false true)
                (Some (VBool true)) [] = (Raise NotImplementedError, w) /\
    closed (self w) = true.
Proof.
  destruct (kdmapi_device_cannot_be_opened (fun _ => []) (fun _ => false) true
              "OmniMIDI 14.6.0 Rev. 2"
              (Device.mk "OmniMIDI 14.6.0 Rev. 2"
                         (KDMAPI.__init__ (fun _ => []) (fun _ => false)) false true)
              (Some (VBool true)) [])
    as (_ & _ & _ & _ & w & Ho & Hc & _).
  - left.
  - exists w. split; [exact Ho | exact Hc].
Defined.

(** ** backends/rtmidi: device listing *)

Lemma filter_named_length {B} (Port : B) (ins outs l : list string) (name : string) :
  name ∈ l ->
  (1 <= length (List.filter (fun d => String.eqb (Device.name d) name)
                  (map (fun name0 =>
                          Device.mk name0 Port (bool_decide (name0 ∈ ins))
                                    (bool_decide (name0 ∈ outs))) l)))%nat.
Proof.
  induction l as [|x l IH]; intros Hin; [inversion Hin|].
  simpl. destruct (String.eqb x name) eqn:Hx; simpl; [lia|].
  apply elem_of_cons in Hin. destruct Hin as [->|Hin].
  - rewrite String.eqb_refl in Hx. discriminate.
  - apply IH. exact Hin.
Qed.

(** [get_devices()] of the RtMidi backend lists one descriptor per input
    port name followed by one per output port name; a descriptor is marked
    input (output) exactly when its name is an input (output) port name, so
    every descriptor has at least one capability; and a name that is both an
    input and an output port is listed at least twice, each time with both
    capabilities. *)
Theorem rtmidi_lists_duplex_ports_twice {B} (Port : B)
        (input_names output_names : list string) :
  length (RtMidi.get_devices Port input_names output_names) =
    (length input_names + length output_names)%nat /\
  map Device.name (RtMidi.get_devices Port input_names output_names) =
    input_names ++ output_names /\
  (forall d, d ∈ RtMidi.get_devices Port input_names output_names ->
     (Device.is_input d = true <-> Device.name d ∈ input_names) /\
     (Device.is_output d = true <-> Device.name d ∈ output_names) /\
     (Device.is_input d = true \/ Device.is_output d = true)) /\
  (forall name, name ∈ input_names -> name ∈ output_names ->
     (2 <= length (List.filter (fun d => String.eqb (Device.name d) name)
                     (RtMidi.get_devices Port input_names output_names)))%nat).
Proof.
  unfold RtMidi.get_devices. split; [|split; [|split]].
  - rewrite length_map, length_app. reflexivity.
  - rewrite map_map. simpl. apply map_id.
  - intros d Hd. apply list_elem_of_fmap in Hd. destruct Hd as (name & -> & Hname).
    simpl. rewrite !bool_decide_eq_true.
    split; [tauto|]. split; [tauto|].
    apply elem_of_app in Hname. tauto.
  - intros name Hi Ho. rewrite map_app, List.filter_app, length_app.
    pose proof (filter_named_length Port input_names output_names input_names name Hi).
    pose proof (filter_named_length Port input_names output_names output_names name Ho).
    lia.
Qed.

Lemma rtmidi_lists_witness :
  (2 <= length (List.filter (fun d => String.eqb (Device.name d) "Synth")
                  (RtMidi.get_devices tt ["Keys"; "Synth"] ["Synth"])))%nat.
Proof.
  apply (proj2 (proj2 (proj2 (rtmidi_lists_duplex_ports_twice tt
                                ["Keys"; "Synth"] ["Synth"])))).
  - right. left.
  - left.
Defined.

(** ** Blocking receive on an idle port *)

Section IdlePolling.
Context {D : Type} `{PortClass D}.

(** One iteration of the polling loop on an open port with nothing pending
    and a transport that has nothing to hand over: it sleeps, and nothing
    but the trace changes. *)
Lemma receive_iter_idle (w : World D) :
  _locking D = true ->
  (forall hs : HookSt D, _receive true hs = (Ok VNone, hs)) ->
  _messages (self w) = [] ->
  closed (self w) = false ->
  exists w1,
    BasePort.receive_iter true w = (Fallthrough, w1) /\
    _messages (self w1) = [] /\
    closed (self w1) = false /\
    autoreset (self w1) = autoreset (self w) /\
    heap w1 = heap w /\
    drv (self w1) = drv (self w) /\
    count_events is_EvSleep (trace (self w1)) =
      S (count_events is_EvSleep (trace (self w))).
Proof.
  intros Hlk Hpassive Hq Hc.
  unfold BasePort.receive_iter. rewrite (with_lock_locking _ w Hlk).
  unfold BasePort.receive_poll_block, call_hook. simpl. rewrite Hpassive. simpl.
  rewrite Hq, Hc. eexists. split; [reflexivity|]. simpl.
  repeat split; try assumption.
  rewrite !count_events_app. simpl. lia.
Qed.

Lemma receive_loop_idle (n : nat) (w : World D) :
  _locking D = true ->
  (forall hs : HookSt D, _receive true hs = (Ok VNone, hs)) ->
  _messages (self w) = [] ->
  closed (self w) = false ->
  exists w',
    BasePort.receive_loop true (repeat id n) w = (None, w') /\
    _messages (self w') = [] /\
    closed (self w') = false /\
    heap w' = heap w /\
    drv (self w') = drv (self w) /\
    count_events is_EvSleep (trace (self w')) =
      (S n + count_events is_EvSleep (trace (self w)))%nat.
Proof.
  intros Hlk Hpassive. revert w. induction n as [|n IH]; intros w Hq Hc;
    destruct (receive_iter_idle w Hlk Hpassive Hq Hc)
      as (w1 & Hi & Hq1 & Hc1 & _ & Hh1 & Hd1 & Hs1).
  - exists w1. simpl. rewrite Hi.
    repeat split; first [assumption | rewrite Hs1; lia].
  - destruct (IH w1 Hq1 Hc1) as (w' & Hl & Hq' & Hc' & Hh' & Hd' & Hs').
    exists w'. simpl. rewrite Hi. change (id w1) with w1. rewrite Hl.
    repeat split; first [congruence | rewrite Hs', Hs1; lia].
Qed.

(** A blocking [receive] on an open input port that has the re-entrant lock
    and nothing pending, whose transport has nothing to hand over and which
    no other thread touches, never returns: however many poll intervals are
    observed, it is still blocked, having slept once per interval and
    changed nothing.  (On a port whose class sets [_locking = False] the
    call does not block: it raises [TypeError] at once.) *)
Theorem blocking_receive_keeps_polling_while_idle (n : nat) (w : World D) :
  is_input (drv (self w)) = Ok true ->
  (forall hs : HookSt D, _receive true hs = (Ok VNone, hs)) ->
  _messages (self w) = [] ->
  closed (self w) = false ->
  (_locking D = true ->
   exists w',
     BasePort.receive true (repeat id n) w = (None, w') /\
     count_events is_EvSleep (trace (self w')) =
       (S n + count_events is_EvSleep (trace (self w)))%nat /\
     _messages (self w') = [] /\
     closed (self w') = false /\
     heap w' = heap w /\
     drv (self w') = drv (self w)) /\
  (_locking D = false ->
   exists w',
     BasePort.receive true (repeat id n) w =
       (Some (Raise (TypeError
          "DummyLock.release() takes 1 positional argument but 4 were given")), w') /\
     count_events is_EvSleep (trace (self w')) =
       count_events is_EvSleep (trace (self w))).
Proof.
  intros Hin Hpassive Hq Hc. split; intros Hlk.
  - unfold BasePort.receive.
    rewrite (receive_prologue_falls_through true w Hlk Hin Hq Hc).
    destruct (receive_loop_idle n (log EvRelease (log EvAcquire w)) Hlk Hpassive Hq Hc)
      as (w' & Hl & Hq' & Hc' & Hh' & Hd' & Hs').
    exists w'. rewrite Hl.
    repeat split;
      first [assumption | rewrite Hs'; simpl; rewrite !count_events_app; simpl; lia].
  - rewrite (receive_unlocked true _ w Hlk Hin).
    eexists. split; [reflexivity|].
    simpl. rewrite !count_events_app. simpl. lia.
Qed.

Lemma receive_loop_closed_while_waiting
      (n : nat) (post : list (World D -> World D)) (w : World D) :
  _locking D = true ->
  (forall hs : HookSt D, _receive true hs = (Ok VNone, hs)) ->
  (forall hs : HookSt D, _close hs = (Ok tt, hs)) ->
  _messages (self w) = [] ->
  closed (self w) = false ->
  truthy (autoreset (self w)) = false ->
  exists w',
    BasePort.receive_loop true (repeat id n ++ other_thread_closes :: post) w =
      (Some (Raise (IOError "port closed during receive()")), w') /\
    closed (self w') = true.
Proof.
  intros Hlk Hpassive Hclose. revert w. induction n as [|n IH]; intros w Hq Hc Har;
    destruct (receive_iter_idle w Hlk Hpassive Hq Hc)
      as (w1 & Hi & Hq1 & Hc1 & Har1 & _).
  - simpl. rewrite Hi.
    assert (Hcl : exists w2,
               other_thread_closes w1 = w2 /\
               closed (self w2) = true /\ _messages (self w2) = []).
    { eexists. split; [reflexivity|].
      unfold other_thread_closes. rewrite (close_open w1 Hlk Hc1), Har1, Har.
      unfold call_hook. rewrite Hclose. simpl. auto. }
    destruct Hcl as (w2 & -> & Hc2 & Hq2).
    destruct (receive_loop_closed post w2 Hc2) as (r & w' & Hi2 & Hl).
    rewrite Hl. exists w'.
    pose proof (receive_iter_closed_idle w2 VNone _ Hlk Hc2 (Hpassive _) eq_refl Hq2)
      as Hr.
    rewrite Hi2 in Hr. simpl in Hr. injection Hr as ->.
    split; [reflexivity|].
    pose proof (receive_iter_same_lifecycle true w2) as (Hcl' & _).
    rewrite Hi2 in Hcl'. simpl in Hcl'. congruence.
  - simpl. rewrite Hi. change (id w1) with w1.
    apply IH; congruence.
Qed.

(** Iterating ([for msg in port]) over an open input port that has the
    re-entrant lock, nothing pending, no autoreset and a quiet transport:
    when another thread closes the port during any of the sleeps, the
    blocking [receive] under the iteration raises [IOError] in its next poll
    and the iteration ends without an error, with the port closed.  (On a
    port whose class sets [_locking = False] the iteration ends at once with
    the [TypeError] of the first [receive], which [__iter__] does not
    catch.) *)
Theorem iteration_ends_when_port_is_closed_while_waiting
        (n : nat) (post : list (World D -> World D)) (w : World D) :
  is_input (drv (self w)) = Ok true ->
  (forall hs : HookSt D, _receive true hs = (Ok VNone, hs)) ->
  (forall hs : HookSt D, _close hs = (Ok tt, hs)) ->
  _messages (self w) = [] ->
  closed (self w) = false ->
  truthy (autoreset (self w)) = false ->
  (_locking D = true ->
   exists w',
     BasePort.receive true (repeat id n ++ other_thread_closes :: post) w =
       (Some (Raise (IOError "port closed during receive()")), w') /\
     BasePort.__iter__next (repeat id n ++ other_thread_closes :: post) w =
       (Some Fallthrough, w') /\
     closed (self w') = true) /\
  (_locking D = false ->
   fst (BasePort.__iter__next (repeat id n ++ other_thread_closes :: post) w) =
     Some (Return (Raise (TypeError
       "DummyLock.release() takes 1 positional argument but 4 were given")))).
Proof.
  intros Hin Hpassive Hclose Hq Hc Har. split; intros Hlk.
  - destruct (receive_loop_closed_while_waiting n post
                (log EvRelease (log EvAcquire w)) Hlk Hpassive Hclose Hq Hc Har)
      as (w' & Hl & Hc').
    assert (Hr : BasePort.receive true (repeat id n ++ other_thread_closes :: post) w =
                 (Some (Raise (IOError "port closed during receive()")), w')).
    { unfold BasePort.receive.
      rewrite (receive_prologue_falls_through true w Hlk Hin Hq Hc). exact Hl. }
    exists w'. split; [exact Hr|]. split; [|exact Hc'].
    unfold BasePort.__iter__next. rewrite Hr. simpl. rewrite Hc'. reflexivity.
  - unfold BasePort.__iter__next.
    rewrite (receive_unlocked true _ w Hlk Hin). reflexivity.
Qed.

End IdlePolling.

Lemma listener_locking : _locking MoreExamples.Listener = true.
Proof. reflexivity. Qed.

Lemma blocking_receive_idle_witness :
  exists w',
    BasePort.receive true (repeat id 3) MoreExamples.listener = (None, w') /\
    count_events is_EvSleep (trace (self w')) = 4%nat.
Proof.
  assert (Hin : is_input (drv (self MoreExamples.listener)) = Ok true) by reflexivity.
  assert (Hpassive : forall hs : HookSt MoreExamples.Listener,
             _receive true hs = (Ok VNone, hs)) by (intros hs; reflexivity).
  destruct (proj1 (blocking_receive_keeps_polling_while_idle 3 MoreExamples.listener
                     Hin Hpassive eq_refl eq_refl) listener_locking)
    as (w' & Hr & Hs & _).
  exists w'. split; [exact Hr | exact Hs].
Defined.

Lemma iteration_ends_witness :
  exists w',
    BasePort.__iter__next (repeat id 2 ++ [other_thread_closes]) MoreExamples.listener =
      (Some Fallthrough, w') /\
    closed (self w') = true.
Proof.
  assert (Hin : is_input (drv (self MoreExamples.listener)) = Ok true) by reflexivity.
  assert (Hpassive : forall hs : HookSt MoreExamples.Listener,
             _receive true hs = (Ok VNone, hs)) by (intros hs; reflexivity).
  assert (Hclose : forall hs : HookSt MoreExamples.Listener,
             _close hs = (Ok tt, hs)) by (intros hs; reflexivity).
  destruct (proj1 (iteration_ends_when_port_is_closed_while_waiting 2 []
                     MoreExamples.listener Hin Hpassive Hclose eq_refl eq_refl eq_refl)
                  listener_locking) as (w' & _ & Hi & Hc).
  exists w'. split; [exact Hi | exact Hc].
Defined.

(** ** The context manager *)

Section WithBlock.
Context {D : Type} `{PortClass D}.

Lemma close_ok_closes (w w' : World D) :
  BasePort.close w = (Ok tt, w') -> closed (self w') = true.
Proof.
  intros Hcl. destruct (closed (self w)) eqn:Hc.
  - pose proof (close_closed_state w Hc) as Hst.
    rewrite Hcl in Hst. simpl in Hst. rewrite Hst. exact Hc.
  - apply (close_returns w w' Hc Hcl).
Qed.

(** [with port: body]: when the [close()] that [__exit__] runs returns
    normally, the port is closed at the end of the block whatever the body
    did, the value of a body that returned is kept and an exception of the
    body is raised again ([__exit__] returns [False]); when that [close()]
    raises, its exception is what the block raises, also in place of an
    exception of the body. *)
Theorem with_block_closes_the_port {A} (body : Py (World D) A) (w : World D) :
  (fst (BasePort.close (snd (body w))) = Ok tt ->
   closed (self (snd (ContextManager.with_port body w))) = true /\
   fst (ContextManager.with_port body w) =
     match fst (body w) with
     | Ok a => Ok (Some a)
     | Raise e => Raise e
     end) /\
  (forall e, fst (BasePort.close (snd (body w))) = Raise e ->
     fst (ContextManager.with_port body w) = Raise e).
Proof.
  unfold ContextManager.with_port, ContextManager.__enter__, ContextManager.__exit__,
    ret, bind.
  destruct (body w) as [rb w1]. simpl.
  destruct (BasePort.close w1) as [[[]|e] w2] eqn:Hcl; simpl.
  - split; [|discriminate]. intros _.
    pose proof (close_ok_closes w1 w2 Hcl) as Hc.
    destruct rb; simpl; auto.
  - split; [discriminate|]. intros e' [= ->]. destruct rb; reflexivity.
Qed.

End WithBlock.

Lemma with_block_witness :
  closed (self (snd (ContextManager.with_port (BasePort.send 7%nat) Examples.echo))) = true /\
  fst (ContextManager.with_port (BasePort.send 7%nat) Examples.echo) =
    Raise (AttributeError "copy").
Proof.
  destruct (proj1 (with_block_closes_the_port (BasePort.send 7%nat) Examples.echo))
    as [Hc Hr]; [reflexivity|].
  split; [exact Hc | exact Hr].
Defined.

(** ** EchoPort: close with autoreset *)

Lemma contents_of_refs (h : list Message) (new : list nat) (msgs : list Message) :
  Forall2 (fun r m => h !! r = Some m) new msgs ->
  map (fun r => h !! r) new = map Some msgs.
Proof.
  intros Hall. induction Hall as [|r m new' msgs' Hr _ IH]; simpl; [reflexivity|].
  rewrite Hr, IH. reflexivity.
Qed.

(** Closing an open EchoPort that has autoreset set returns normally and
    closes it, but the reset step has echoed the 32 reset messages into the
    port's own pending queue, behind what was pending; they stay there after
    the close and the next [receive] calls on the closed port return them,
    oldest first, before reporting that nothing is left. *)
Theorem echo_close_with_autoreset_leaves_reset_messages_pending
        (w : World EchoPort.Attrs) (block : bool) :
  closed (self w) = false ->
  truthy (autoreset (self w)) = true ->
  exists new w',
    BasePort.close w = (Ok tt, w') /\
    closed (self w') = true /\
    _messages (self w') = _messages (self w) ++ new /\
    map (fun r => heap w' !! r) new = map Some (reset_messages 16) /\
    fst (receive_n (length (_messages (self w)) + 32) block [] w') =
      map (fun r => Some (Ok (VMsg r))) (_messages (self w) ++ new).
Proof.
  intros Hc Har.
  destruct (echo_send_each (reset_messages DEFAULT_NUM_CHANNELS) (log EvAcquire w) Hc)
    as (new & ext & w1 & Hs & Hq & Hh & Hall & Hc1).
  assert (Hreset : BasePort.reset (log EvAcquire w) = (Ok tt, w1)).
  { unfold BasePort.reset. cbn [closed self log]. rewrite Hc. exact Hs. }
  assert (Hclose : BasePort.close w =
                   (Ok tt, log EvRelease (set_closed true
                             (snd (call_hook EvClose _close w1))))).
  { rewrite (close_open w echo_locking Hc), Har. unfold try_except_IOError.
    rewrite Hreset. unfold call_hook. reflexivity. }
  exists new. eexists. split; [exact Hclose|].
  assert (Hq' : _messages (self (log EvRelease (set_closed true
                   (snd (call_hook EvClose _close w1))))) = _messages (self w) ++ new).
  { unfold call_hook. simpl. exact Hq. }
  assert (Hlen : length new = 32%nat).
  { rewrite (Forall2_length _ _ _ Hall). reflexivity. }
  split; [reflexivity|]. split; [exact Hq'|]. split.
  - unfold call_hook. cbn [heap snd log set_closed self].
    exact (contents_of_refs (heap w1) new _ Hall).
  - assert (Hin : is_input (drv (self (log EvRelease (set_closed true
                    (snd (call_hook EvClose _close w1)))))) = Ok true) by reflexivity.
    destruct (receive_n_drains block [] (_messages (self w) ++ new) _ echo_locking Hin Hq')
      as (w2 & Hn & _).
    rewrite length_app, Hlen in Hn. rewrite Hn. reflexivity.
Qed.

Lemma echo_close_with_autoreset_witness :
  exists new w',
    BasePort.close (snd (EchoPort.__init__ VNone (VBool true) [])) = (Ok tt, w') /\
    closed (self w') = true /\
    _messages (self w') = new /\
    length new = 32%nat.
Proof.
  destruct (echo_close_with_autoreset_leaves_reset_messages_pending
              (snd (EchoPort.__init__ VNone (VBool true) [])) false eq_refl eq_refl)
    as (new & w' & Hcl & Hc & Hq & Hm & _).
  exists new, w'. split; [exact Hcl|]. split; [exact Hc|]. split; [exact Hq|].
  rewrite <- (length_map (fun r => heap w' !! r) new), Hm, length_map. reflexivity.
Defined.

(** ** utils/lock.py: the lock of a port that opts out of locking *)

Section DummyLockFacts.
Context {D : Type} `{PortClass D}.

(** [DummyLock] works when its methods are called by name ([acquire()]
    returns [True], [release()] returns [None]) and as far as entering a
    [with] block, but [__exit__ = release] takes no exception arguments, so
    the call [__exit__(type, value, traceback)] that ends a [with] block
    raises [TypeError].  Hence on a port whose class sets [_locking = False]
    every [with self._lock] block raises once its body has run, whatever the
    body did: [send] on an open output port calls the transport with the
    copy and then raises, [receive] on an input port raises (with either
    value of [block] and whatever is pending), and [close()] raises. *)
Theorem dummy_lock_fails_every_with_block
        {A} (body : Py (World D) A) (w : World D) (msg : nat) (m : Message) :
  _locking D = false ->
  DummyLock.acquire 0 = Ok (VBool true) /\
  DummyLock.release 0 = Ok VNone /\
  DummyLock.__enter__ 0 = Ok (VBool true) /\
  DummyLock.__exit__ 3 =
    Raise (TypeError "DummyLock.release() takes 1 positional argument but 4 were given") /\
  with_lock body w =
    (Raise (TypeError "DummyLock.release() takes 1 positional argument but 4 were given"),
     log EvRelease (snd (body (log EvAcquire w)))) /\
  (is_output (drv (self w)) = Ok true ->
   closed (self w) = false ->
   heap w !! msg = Some m ->
   fst (BasePort.send msg w) =
     Raise (TypeError "DummyLock.release() takes 1 positional argument but 4 were given") /\
   trace (self (snd (BasePort.send msg w))) =
     trace (self w) ++ [EvAcquire; EvSend (length (heap w)); EvRelease]) /\
  (is_input (drv (self w)) = Ok true ->
   forall block sched,
     fst (BasePort.receive block sched w) =
       Some (Raise (TypeError
         "DummyLock.release() takes 1 positional argument but 4 were given"))) /\
  fst (BasePort.close w) =
    Raise (TypeError "DummyLock.release() takes 1 positional argument but 4 were given").
Proof.
  intros Hlk. do 4 (split; [reflexivity|]).
  split; [exact (with_lock_unlocked body w Hlk)|].
  split; [|split].
  - intros Hout Hc Hm.
    destruct (copy_fresh msg m (heap w) Hm) as (Hcopy & _).
    unfold BasePort.send. rewrite Hout, Hc, (with_lock_unlocked _ w Hlk).
    split; [reflexivity|].
    simpl. rewrite Hcopy. unfold call_hook. simpl.
    destruct (_send _ _) as [r hs]. simpl.
    rewrite <- !app_assoc. reflexivity.
  - intros Hin block sched. rewrite (receive_unlocked block sched w Hlk Hin). reflexivity.
  - exact (close_unlocked w Hlk).
Qed.

End DummyLockFacts.

Lemma dummy_lock_witness :
  fst (BasePort.send 0%nat Examples.shared) =
    Raise (TypeError "DummyLock.release() takes 1 positional argument but 4 were given") /\
  trace (self (snd (BasePort.send 0%nat Examples.shared))) =
    trace (self Examples.shared) ++ [EvAcquire; EvSend 2%nat; EvRelease] /\
  fst (BasePort.receive true [] Examples.shared) =
    Some (Raise (TypeError
      "DummyLock.release() takes 1 positional argument but 4 were given")).
Proof.
  assert (Hlk : _locking Examples.Shared = false) by reflexivity.
  destruct (dummy_lock_fails_every_with_block (ret tt) Examples.shared 0%nat
              Examples.note_a Hlk) as (_ & _ & _ & _ & _ & Hsend & Hrecv & _).
  destruct (Hsend eq_refl eq_refl eq_refl) as [Hr Ht].
  split; [exact Hr|]. split; [exact Ht|].
  exact (Hrecv eq_refl true []).
Defined.
